(** * The drug-search click handler: request, response and render cycle

    One handler is bound to the click of [searchBtn].  It reads
    [searchInput.value], posts the trimmed text to a fixed endpoint and writes
    the outcome into [resultDiv].  The repository holds two revisions of it
    which differ only in the markup built from the payload:

    - [src/app.ts] lines 5-37 (and its compiled form, lines 110-140): the
      "generic info" layout over [brand_drug], [generic_info], [raw_info];
    - [src/unnamed/part_000] lines 6-56 (compiled form: [src/app.ts] lines
      52-96): the "boxes" layout over [brand_info], [generic_summary],
      [retailer_info].

    The handler is embedded as a program over the effects it performs (DOM
    reads and writes, [alert], [fetch], [response.json()], [console.error]);
    running it against a mocked network gives the final page state and the
    log of what it did. *)

From Stdlib Require Import List NArith Bool String Ascii Lia.
Import ListNotations.
Local Open Scope N_scope.
Set Warnings "-register-all".

(** ** JavaScript strings: sequences of UTF-16 code units *)

Definition code_unit : Type := N.
Definition jsstring : Type := list code_unit.

(** An ASCII literal of the source text, as a JavaScript string. *)
Fixpoint lit (s : string) : jsstring :=
  match s with
  | EmptyString => []
  | String c rest => N_of_ascii c :: lit rest
  end.

Fixpoint jsstring_eqb (a b : jsstring) : bool :=
  match a, b with
  | [], [] => true
  | x :: a', y :: b' => (x =? y) && jsstring_eqb a' b'
  | _, _ => false
  end.

(** The quotation mark, line feed and a run of [n] spaces, for spelling out
    the template literals of the source character by character. *)
Definition dquote : jsstring := [0x22].
Definition LF : jsstring := [0x0A].
Definition spaces (n : nat) : jsstring := repeat 0x20 n.

(** [s.includes(needle)] *)
Fixpoint starts_with (needle s : jsstring) : bool :=
  match needle, s with
  | [], _ => true
  | x :: needle', y :: s' => (x =? y) && starts_with needle' s'
  | _ :: _, [] => false
  end.

Fixpoint includes (needle s : jsstring) : bool :=
  starts_with needle s ||
  match s with
  | [] => false
  | _ :: s' => includes needle s'
  end.

(** Number of positions of [s] at which [needle] starts. *)
Fixpoint occurrences (needle s : jsstring) : nat :=
  match s with
  | [] => 0%nat
  | _ :: s' => ((if starts_with needle s then 1 else 0) + occurrences needle s')%nat
  end.

(** ** [String.prototype.trim]

    ECMAScript strips WhiteSpace and LineTerminator code points: TAB, LF, VT,
    FF, CR, SP, NBSP, ZWNBSP, the other members of category Zs, LS and PS.
    All of them are single code units. *)
Definition is_white_space (c : code_unit) : bool :=
  (c =? 0x09) || (c =? 0x0A) || (c =? 0x0B) || (c =? 0x0C) || (c =? 0x0D) ||
  (c =? 0x20) || (c =? 0xA0) || (c =? 0x1680) ||
  ((0x2000 <=? c) && (c <=? 0x200A)) ||
  (c =? 0x2028) || (c =? 0x2029) || (c =? 0x202F) || (c =? 0x205F) ||
  (c =? 0x3000) || (c =? 0xFEFF).

Fixpoint trimStart (s : jsstring) : jsstring :=
  match s with
  | [] => []
  | c :: rest => if is_white_space c then trimStart rest else s
  end.

Definition trimEnd (s : jsstring) : jsstring := rev (trimStart (rev s)).

Definition trim (s : jsstring) : jsstring := trimEnd (trimStart s).

(** The string is empty or made of white space only. *)
Definition blank (s : jsstring) : bool := forallb is_white_space s.

(** [!s] for a string [s]: only the empty string is falsy. *)
Definition not_string (s : jsstring) : bool :=
  match s with
  | [] => true
  | _ :: _ => false
  end.

(** ** [JSON.stringify] of the request object

    QuoteJSONString: the two-character escapes, [\uXXXX] (lower-case
    hexadecimal) for the other control characters and for unpaired
    surrogates, everything else verbatim. *)
Definition hex_digit (n : N) : code_unit :=
  if n <? 10 then 0x30 + n else 0x61 + (n - 10).

Definition UnicodeEscape (c : code_unit) : jsstring :=
  [0x5C; 0x75;
   hex_digit ((c / 4096) mod 16); hex_digit ((c / 256) mod 16);
   hex_digit ((c / 16) mod 16); hex_digit (c mod 16)].

Definition is_leading_surrogate (c : code_unit) : bool :=
  (0xD800 <=? c) && (c <=? 0xDBFF).

Definition is_trailing_surrogate (c : code_unit) : bool :=
  (0xDC00 <=? c) && (c <=? 0xDFFF).

Definition quote_unit (c : code_unit) : jsstring :=
  if c =? 0x08 then [0x5C; 0x62]
  else if c =? 0x09 then [0x5C; 0x74]
  else if c =? 0x0A then [0x5C; 0x6E]
  else if c =? 0x0C then [0x5C; 0x66]
  else if c =? 0x0D then [0x5C; 0x72]
  else if c =? 0x22 then [0x5C; 0x22]
  else if c =? 0x5C then [0x5C; 0x5C]
  else if (c <? 0x20) || is_leading_surrogate c || is_trailing_surrogate c
       then UnicodeEscape c
  else [c].

Fixpoint quote_units (s : jsstring) : jsstring :=
  match s with
  | [] => []
  | c :: rest =>
      if is_leading_surrogate c then
        match rest with
        | d :: rest' =>
            if is_trailing_surrogate d then c :: d :: quote_units rest'
            else UnicodeEscape c ++ quote_units rest
        | [] => UnicodeEscape c
        end
      else quote_unit c ++ quote_units rest
  end.

Definition QuoteJSONString (s : jsstring) : jsstring :=
  dquote ++ quote_units s ++ dquote.

(** [JSON.stringify({ key: value })] for a string [value]: one property, no
    indentation. *)
Definition JSON_stringify_property (key value : jsstring) : jsstring :=
  lit "{" ++ QuoteJSONString key ++ lit ":" ++ QuoteJSONString value ++ lit "}".

(** ** Reading the request body back

    The string grammar of JSON, as [JSON.parse] reads it, from just after
    the opening quotation mark: the decoded string and the text left after
    the closing mark.  It serves to state what the body of the request
    denotes. *)
Definition hex_value (c : code_unit) : option N :=
  if (0x30 <=? c) && (c <=? 0x39) then Some (c - 0x30)
  else if (0x61 <=? c) && (c <=? 0x66) then Some (c - 0x61 + 10)
  else if (0x41 <=? c) && (c <=? 0x46) then Some (c - 0x41 + 10)
  else None.

Definition hex4 (h3 h2 h1 h0 : code_unit) : option code_unit :=
  match hex_value h3, hex_value h2, hex_value h1, hex_value h0 with
  | Some a, Some b, Some c, Some d => Some (4096 * a + 256 * b + 16 * c + d)
  | _, _, _, _ => None
  end.

Definition unescape (e : code_unit) : option code_unit :=
  if e =? 0x22 then Some 0x22
  else if e =? 0x5C then Some 0x5C
  else if e =? 0x2F then Some 0x2F
  else if e =? 0x62 then Some 0x08
  else if e =? 0x66 then Some 0x0C
  else if e =? 0x6E then Some 0x0A
  else if e =? 0x72 then Some 0x0D
  else if e =? 0x74 then Some 0x09
  else None.

Definition push (c : code_unit) (o : option (jsstring * jsstring))
  : option (jsstring * jsstring) :=
  match o with
  | Some (v, rest) => Some (c :: v, rest)
  | None => None
  end.

Fixpoint read_string_body (s : jsstring) : option (jsstring * jsstring) :=
  match s with
  | [] => None
  | c :: rest =>
      if c =? 0x22 then Some ([], rest)
      else if c =? 0x5C then
        match rest with
        | e :: rest1 =>
            if e =? 0x75 then
              match rest1 with
              | h3 :: h2 :: h1 :: h0 :: rest2 =>
                  match hex4 h3 h2 h1 h0 with
                  | Some u => push u (read_string_body rest2)
                  | None => None
                  end
              | _ => None
              end
            else
              match unescape e with
              | Some t => push t (read_string_body rest1)
              | None => None
              end
        | [] => None
        end
      else if c <? 0x20 then None
      else push c (read_string_body rest)
  end.

(** The text of an object with one string member, without white space. *)
Definition read_single_property (text : jsstring) : option (jsstring * jsstring) :=
  match text with
  | 0x7B :: 0x22 :: rest =>
      match read_string_body rest with
      | Some (key, 0x3A :: 0x22 :: rest') =>
          match read_string_body rest' with
          | Some (value, [0x7D]) => Some (key, value)
          | _ => None
          end
      | _ => None
      end
  | _ => None
  end.

(** ** JSON payloads and what the handler does with them *)

(** The value [response.json()] resolves to.  A number is kept as the text
    Number::toString gives for it, which is all a template literal observes.
    The members of an object are listed as in the document; a repeated key
    takes its last value, as [JSON.parse] has it. *)
Inductive json : Type :=
| JNull
| JBool (b : bool)
| JNumber (text : jsstring)
| JString (s : jsstring)
| JArray (elements : list json)
| JObject (members : list (jsstring * json)).

(** A JavaScript value met by the handler: [None] is [undefined]. *)
Definition js_value : Type := option json.

Inductive type_error : Type :=
| PropertyOfNull (name : jsstring)
| PropertyOfUndefined (name : jsstring)
| NotAFunction (name : jsstring)
| NoPrimitiveValue.

(** What can be thrown or be the reason of a rejected promise: a [TypeError]
    raised by the engine while the handler runs, or whatever the network
    layer rejects with. *)
Inductive exn : Type :=
| TypeError (why : type_error)
| Rejection (name message : jsstring).

Definition result (A : Type) : Type := (exn + A)%type.

Definition rbind {A B : Type} (r : result A) (k : A -> result B) : result B :=
  match r with
  | inl e => inl e
  | inr a => k a
  end.

Declare Scope result_scope.
Delimit Scope result_scope with result.
Notation "x <- r ;; k" := (rbind r (fun x => k))
  (at level 61, r at next level, right associativity) : result_scope.

Fixpoint own_property (key : jsstring) (members : list (jsstring * json)) : js_value :=
  match members with
  | [] => None
  | (k, v) :: rest =>
      match own_property key rest with
      | Some later => Some later
      | None => if jsstring_eqb k key then Some v else None
      end
  end.

(** The six payload fields the two revisions read.  None of these names is a
    property of a built-in prototype, so on anything but an object with such
    a member the read gives [undefined]. *)
Inductive field : Type :=
| brand_drug | generic_info | raw_info
| brand_info | generic_summary | retailer_info.

Definition field_name (f : field) : jsstring :=
  match f with
  | brand_drug => lit "brand_drug"
  | generic_info => lit "generic_info"
  | raw_info => lit "raw_info"
  | brand_info => lit "brand_info"
  | generic_summary => lit "generic_summary"
  | retailer_info => lit "retailer_info"
  end.

(** [data.f] *)
Definition get (data : json) (f : field) : result js_value :=
  match data with
  | JNull => inl (TypeError (PropertyOfNull (field_name f)))
  | JObject members => inr (own_property (field_name f) members)
  | JBool _ | JNumber _ | JString _ | JArray _ => inr None
  end.

(** ToString on a payload value.  An array joins its elements with commas,
    [null] elements giving the empty string; an object gives
    ["[object Object]"] through [Object.prototype.toString], unless a member
    named [toString] shadows it: that member is not callable, the inherited
    [valueOf] returns the object itself, and the conversion throws. *)
Fixpoint ToString (v : json) : result jsstring :=
  match v with
  | JNull => inr (lit "null")
  | JBool true => inr (lit "true")
  | JBool false => inr (lit "false")
  | JNumber text => inr text
  | JString s => inr s
  | JArray elements =>
      (fix join (l : list json) : result jsstring :=
         match l with
         | [] => inr []
         | x :: rest =>
             rbind (match x with JNull => inr [] | _ => ToString x end)
               (fun sx =>
                  match rest with
                  | [] => inr sx
                  | _ :: _ => rbind (join rest) (fun sr => inr (sx ++ lit "," ++ sr))
                  end)
         end) elements
  | JObject members =>
      match own_property (lit "toString") members with
      | Some _ => inl (TypeError NoPrimitiveValue)
      | None => inr (lit "[object Object]")
      end
  end.

(** [${v}] inside a template literal. *)
Definition interpolate (v : js_value) : result jsstring :=
  match v with
  | None => inr (lit "undefined")
  | Some j => ToString j
  end.

(** [${data.f}]: the property is read, then converted. *)
Definition substitution (data : json) (f : field) : result jsstring :=
  (v <- get data f ;; interpolate v)%result.

Fixpoint map_result {A B : Type} (f : A -> result B) (l : list A) : result (list B) :=
  match l with
  | [] => inr []
  | x :: rest =>
      rbind (f x) (fun y => rbind (map_result f rest) (fun ys => inr (y :: ys)))
  end.

(** Only an array has a [map] method among the values JSON can produce. *)
Definition has_map_method (v : js_value) : bool :=
  match v with
  | Some (JArray _) => true
  | _ => false
  end.

(** [v.map(callback)] *)
Definition call_map (v : js_value) (callback : json -> result jsstring)
  : result (list jsstring) :=
  match v with
  | Some (JArray elements) => map_result callback elements
  | None => inl (TypeError (PropertyOfUndefined (lit "map")))
  | Some JNull => inl (TypeError (PropertyOfNull (lit "map")))
  | Some _ => inl (TypeError (NotAFunction (lit "map")))
  end.

(** [strings.join("")] *)
Definition join_empty (strings : list jsstring) : jsstring := List.concat strings.

(** ** The two markups

    Each line of a template literal of the source is a line feed, its
    indentation and its text. *)
Definition line (indent : nat) (text : jsstring) : jsstring :=
  LF ++ spaces indent ++ text.

Definition quoted (s : string) : jsstring := dquote ++ lit s ++ dquote.

(** [src/app.ts] lines 27-32, with the three substitutions already
    converted to strings. *)
Definition generic_layout (brand generic raw : jsstring) : jsstring :=
  line 13 (lit "<h2>Generic Info for " ++ brand ++ lit "</h2>") ++
  line 13 (lit "<p>" ++ generic ++ lit "</p>") ++
  line 13 (lit "<h3>Raw Info</h3>") ++
  line 13 (lit "<p>" ++ raw ++ lit "</p>") ++
  line 9 [].

(** The markup expression of [src/app.ts]: the substitutions are evaluated
    and converted left to right, and the first one that throws ends the
    evaluation. *)
Definition generic_markup (data : json) : result jsstring :=
  (brand <- substitution data brand_drug ;;
   generic <- substitution data generic_info ;;
   raw <- substitution data raw_info ;;
   inr (generic_layout brand generic raw))%result.

(** [src/unnamed/part_000] line 47: the callback given to [map]. *)
Definition retailer_box (info : jsstring) : jsstring :=
  lit "<div class=" ++ quoted "retailer-box box" ++ lit "><pre>" ++ info ++
  lit "</pre></div>".

(** [src/unnamed/part_000] lines 32-51. *)
Definition boxes_layout (brand generic retailers : jsstring) : jsstring :=
  line 12 (lit "<div class=" ++ quoted "top-row" ++ lit ">") ++
  line 16 (lit "<div id=" ++ quoted "brand-box" ++ lit " class=" ++ quoted "box" ++ lit ">") ++
  line 20 (lit "<h2>Brand Info</h2>") ++
  line 20 (lit "<pre>" ++ brand ++ lit "</pre>") ++
  line 16 (lit "</div>") ++
  line 16 (lit "<div id=" ++ quoted "generic-box" ++ lit " class=" ++ quoted "box" ++ lit ">") ++
  line 20 (lit "<h2>Generic Summary</h2>") ++
  line 20 (lit "<pre>" ++ generic ++ lit "</pre>") ++
  line 16 (lit "</div>") ++
  line 12 (lit "</div>") ++
  line 12 (lit "<div id=" ++ quoted "retailer-row" ++ lit " class=" ++ quoted "row" ++ lit ">") ++
  line 16 retailers ++
  line 12 (lit "</div>") ++
  line 8 [].

(** [data.retailer_info.map(info => ...).join("")] *)
Definition retailer_row (data : json) : result jsstring :=
  (v <- get data retailer_info ;;
   boxes <- call_map v (fun info => s <- ToString info ;; inr (retailer_box s)) ;;
   inr (join_empty boxes))%result.

Definition boxes_markup (data : json) : result jsstring :=
  (brand <- substitution data brand_info ;;
   generic <- substitution data generic_summary ;;
   retailers <- retailer_row data ;;
   inr (boxes_layout brand generic retailers))%result.

(** ** The effects of the handler *)

Record RequestInit : Type := {
  method : jsstring;
  headers : list (jsstring * jsstring);
  body : jsstring
}.

(** A response as the handler sees it: its status, from which [ok] derives,
    and what [json()] settles to (the parsed body, or the rejection for a
    body that is not JSON). *)
Record Response : Type := {
  status : N;
  json_outcome : result json
}.

(** [response.ok]: the status is in the range 200-299. *)
Definition ok (response : Response) : bool :=
  (200 <=? status response) && (status response <=? 299).

Inductive effect : Type -> Type :=
| GetInputValue : effect jsstring
| Alert (message : jsstring) : effect unit
| Fetch (url : jsstring) (init : RequestInit) : effect (result Response)
| ResponseJson (response : Response) : effect (result json)
| SetInnerText (text : jsstring) : effect unit
| SetInnerHTML (markup : jsstring) : effect unit
| ConsoleError (label : jsstring) (error : exn) : effect unit.

(** Handler code: a tree of effects ending in a value or a thrown
    exception. *)
Inductive prog (A : Type) : Type :=
| Ret (a : A)
| Throw (e : exn)
| Vis {X : Type} (e : effect X) (k : X -> prog A).

Arguments Ret {A} a.
Arguments Throw {A} e.
Arguments Vis {A X} e k.

Fixpoint bind {A B : Type} (p : prog A) (k : A -> prog B) : prog B :=
  match p with
  | Ret a => k a
  | Throw e => Throw e
  | Vis e k' => Vis e (fun x => bind (k' x) k)
  end.

Declare Scope prog_scope.
Delimit Scope prog_scope with prog.
Notation "x <- p ;; k" := (bind p (fun x => k))
  (at level 61, p at next level, right associativity) : prog_scope.
Notation "p ;; k" := (bind p (fun _ => k))
  (at level 61, right associativity) : prog_scope.

Definition trigger {X : Type} (e : effect X) : prog X := Vis e Ret.

(** [await promise]: the settled value, or a throw of the rejection. *)
Definition await {X : Type} (promise : effect (result X)) : prog X :=
  Vis promise (fun settled =>
    match settled with
    | inl reason => Throw reason
    | inr x => Ret x
    end).

(** A pure computation that may throw, inside handler code. *)
Definition lift {A : Type} (r : result A) : prog A :=
  match r with
  | inl e => Throw e
  | inr a => Ret a
  end.

(** [try { p } catch (error) { h error }] *)
Fixpoint try_catch {A : Type} (p : prog A) (h : exn -> prog A) : prog A :=
  match p with
  | Ret a => Ret a
  | Throw e => h e
  | Vis e k => Vis e (fun x => try_catch (k x) h)
  end.

(** ** The handler *)

Definition endpoint : jsstring := lit "http://localhost:5000/search".

(** The second argument of [fetch], for the trimmed query [brandDrug]. *)
Definition search_init (brandDrug : jsstring) : RequestInit :=
  {| method := lit "POST";
     headers := [(lit "Content-Type", lit "application/json")];
     body := JSON_stringify_property (lit "brand_drug") brandDrug |}.

Definition empty_notice : jsstring := lit "Please enter a brand drug name.".
Definition http_error_text : jsstring := lit "Error fetching drug information.".
Definition failure_text : jsstring := lit "An error occurred.".

(** The body of the [try] block: [src/app.ts] lines 13-32,
    [src/unnamed/part_000] lines 14-51.  [markup] is the template literal
    assigned to [resultDiv.innerHTML]. *)
Definition try_block (markup : json -> result jsstring) (brandDrug : jsstring)
  : prog unit :=
  (response <- await (Fetch endpoint (search_init brandDrug)) ;;
   if negb (ok response) then
     trigger (SetInnerText http_error_text) ;;
     Ret tt
   else
     data <- await (ResponseJson response) ;;
     html <- lift (markup data) ;;
     trigger (SetInnerHTML html))%prog.

(** The [catch] block. *)
Definition catch_block (error : exn) : prog unit :=
  (trigger (ConsoleError (lit "Error:") error) ;;
   trigger (SetInnerText failure_text))%prog.

(** The listener bound to the click of [searchBtn]. *)
Definition click_handler (markup : json -> result jsstring) : prog unit :=
  (value <- trigger GetInputValue ;;
   let brandDrug := trim value in
   if not_string brandDrug then
     trigger (Alert empty_notice) ;;
     Ret tt
   else
     try_catch (try_block markup brandDrug) catch_block)%prog.

(** The revision of [src/app.ts]. *)
Definition generic_handler : prog unit := click_handler generic_markup.

(** The revision of [src/unnamed/part_000]. *)
Definition boxes_handler : prog unit := click_handler boxes_markup.

(** ** Running the handler on a page, against a mocked network *)

(** The content of [resultDiv]: markup assigned through [innerHTML], or text
    assigned through [innerText]. *)
Inductive content : Type :=
| Markup (html : jsstring)
| Text (text : jsstring).

(** What an activation does that can be observed from outside. *)
Inductive action : Type :=
| Alerted (message : jsstring)
| Requested (url : jsstring) (init : RequestInit)
| BodyRead (response : Response)
| WroteText (text : jsstring)
| WroteMarkup (markup : jsstring)
| Logged (label : jsstring) (error : exn).

(** The part of the document the handler touches. *)
Record page : Type := {
  searchInput_value : jsstring;
  resultDiv : content
}.

(** The mocked network: how the promise of each [fetch] settles. *)
Definition network : Type := jsstring -> RequestInit -> result Response.

Definition write (c : content) (p : page) : page :=
  {| searchInput_value := searchInput_value p; resultDiv := c |}.

(** One effect: its answer, the page it leaves and the action observed. *)
Definition perform (net : network) {X : Type} (e : effect X) (p : page)
  : X * page * list action :=
  match e in effect T return T * page * list action with
  | GetInputValue => (searchInput_value p, p, [])
  | Alert message => (tt, p, [Alerted message])
  | Fetch url init => (net url init, p, [Requested url init])
  | ResponseJson response => (json_outcome response, p, [BodyRead response])
  | SetInnerText text => (tt, write (Text text) p, [WroteText text])
  | SetInnerHTML markup => (tt, write (Markup markup) p, [WroteMarkup markup])
  | ConsoleError label error => (tt, p, [Logged label error])
  end.

Record outcome (A : Type) : Type := {
  returned : result A;
  final : page;
  trace : list action
}.

Arguments returned {A} o.
Arguments final {A} o.
Arguments trace {A} o.

(** The run of a program from a page: what it returns ([inl]: an exception
    left it), the page at the end and the actions in order. *)
Fixpoint run {A : Type} (net : network) (c : prog A) (p : page) : outcome A :=
  match c with
  | Ret a => {| returned := inr a; final := p; trace := [] |}
  | Throw e => {| returned := inl e; final := p; trace := [] |}
  | Vis e k =>
      let '(x, p', observed) := perform net e p in
      let rest := run net (k x) p' in
      {| returned := returned rest;
         final := final rest;
         trace := observed ++ trace rest |}
  end.

(** One activation: the page after a click has been handled. *)
Definition activate (net : network) (handler : prog unit) (p : page) : page :=
  final (run net handler p).

Definition is_request (a : action) : bool :=
  match a with
  | Requested _ _ => true
  | _ => false
  end.

Definition is_body_read (a : action) : bool :=
  match a with
  | BodyRead _ => true
  | _ => false
  end.

Definition is_write (a : action) : bool :=
  match a with
  | WroteText _ | WroteMarkup _ => true
  | _ => false
  end.

(** The ways an exception arises inside the [try] block for the query
    [brandDrug]: the fetch rejects, [response.json()] rejects on a body that
    is not JSON, or the markup expression throws. *)
Inductive try_failure (markup : json -> result jsstring) (net : network)
  (brandDrug : jsstring) (error : exn) : Prop :=
| fetch_rejects :
    net endpoint (search_init brandDrug) = inl error ->
    try_failure markup net brandDrug error
| json_rejects (response : Response) :
    net endpoint (search_init brandDrug) = inr response ->
    ok response = true ->
    json_outcome response = inl error ->
    try_failure markup net brandDrug error
| markup_throws (response : Response) (data : json) :
    net endpoint (search_init brandDrug) = inr response ->
    ok response = true ->
    json_outcome response = inr data ->
    markup data = inl error ->
    try_failure markup net brandDrug error.

(** ** Mocks and sample payloads *)

(** A network on which every fetch settles the same way. *)
Definition serve (settles : result Response) : network := fun _ _ => settles.

Definition respond (code : N) (data : json) : result Response :=
  inr {| status := code; json_outcome := inr data |}.

(** [{"brand_drug":"X","generic_info":"Y","raw_info":"Z"}] *)
Definition generic_sample : json :=
  JObject [(lit "brand_drug", JString (lit "X"));
           (lit "generic_info", JString (lit "Y"));
           (lit "raw_info", JString (lit "Z"))].

(** [{"brand_info":"A","generic_summary":"B","retailer_info":["C","D"]}] *)
Definition boxes_sample : json :=
  JObject [(lit "brand_info", JString (lit "A"));
           (lit "generic_summary", JString (lit "B"));
           (lit "retailer_info", JArray [JString (lit "C"); JString (lit "D")])].

Definition sample_page : page :=
  {| searchInput_value := lit "  Tylenol ";
     resultDiv := Markup (lit "<p>earlier result</p>") |}.

(** ** Which field set a payload carries *)

Definition carries (data : json) (f : field) : bool :=
  match get data f with
  | inr (Some _) => true
  | _ => false
  end.

Definition generic_fields : list field := [brand_drug; generic_info; raw_info].
Definition boxes_fields : list field := [brand_info; generic_summary; retailer_info].

(** The payload has no [retailer_info] to map over: the field is missing, or
    its value has no [map] method. *)
Definition retailer_info_unmappable (data : json) : bool :=
  match get data retailer_info with
  | inr v => negb (has_map_method v)
  | inl _ => true
  end.

(** The markup a dispatch on the payload would build: the layout of the
    field set found in it. *)
Definition markup_of_present_fields (data : json) : option (result jsstring) :=
  if forallb (carries data) generic_fields then Some (generic_markup data)
  else if forallb (carries data) boxes_fields then Some (boxes_markup data)
  else None.

(** A handler renders by the field set present in the payload. *)
Definition renders_present_fields (handler : prog unit) : Prop :=
  forall (net : network) (p : page) (response : Response) (data : json)
         (html : jsstring),
    trim (searchInput_value p) <> [] ->
    net endpoint (search_init (trim (searchInput_value p))) = inr response ->
    ok response = true ->
    json_outcome response = inr data ->
    markup_of_present_fields data = Some (inr html) ->
    resultDiv (activate net handler p) = Markup html.

(** A code unit that QuoteJSONString copies as it is. *)
Definition plain (c : code_unit) : bool :=
  (0x20 <=? c) && negb (c =? 0x22) && negb (c =? 0x5C) &&
  negb (is_leading_surrogate c) && negb (is_trailing_surrogate c).

(** ** Sessions: the listener over several clicks

    [searchBtn.addEventListener("click", ...)] runs the handler once per
    click.  Between clicks the user may retype the input; a session lists,
    for each click, the value found in the input and the network met, each
    activation settling before the next click. *)

(** The user's part: the input field holds [v] when the click comes. *)
Definition type_value (v : jsstring) (p : page) : page :=
  {| searchInput_value := v; resultDiv := resultDiv p |}.

Fixpoint session (markup : json -> result jsstring)
  (clicks : list (jsstring * network)) (p : page) : page * list action :=
  match clicks with
  | [] => (p, [])
  | (v, net) :: later =>
      let o := run net (click_handler markup) (type_value v p) in
      let (p', t) := session markup later (final o) in
      (p', trace o ++ t)
  end.

Definition is_alert (a : action) : bool :=
  match a with
  | Alerted _ => true
  | _ => false
  end.

Definition valid_click (click : jsstring * network) : bool :=
  negb (blank (fst click)).

(** ** When the markup expressions succeed *)






Definition is_object (data : json) : bool :=
  match data with
  | JObject _ => true
  | _ => false
  end.


(** * Properties *)

(** ** Trimming *)

Lemma trimStart_nil_iff (s : jsstring) : trimStart s = [] <-> blank s = true.
Proof.
  unfold blank. induction s as [|c rest IH]; simpl.
  - tauto.
  - destruct (is_white_space c); simpl.
    + exact IH.
    + split; discriminate.
Qed.

Lemma trimStart_head (s rest : jsstring) (c : code_unit) :
  trimStart s = c :: rest -> is_white_space c = false.
Proof.
  induction s as [|d s' IH]; simpl.
  - discriminate.
  - destruct (is_white_space d) eqn:Hd.
    + exact IH.
    + intros H. injection H as -> _. exact Hd.
Qed.

Lemma trimStart_suffix (s : jsstring) :
  exists prefix, s = prefix ++ trimStart s /\ blank prefix = true.
Proof.
  induction s as [|c rest [prefix [Heq Hb]]]; simpl.
  - exists []. split; reflexivity.
  - destruct (is_white_space c) eqn:Hc.
    + exists (c :: prefix). split.
      * simpl. f_equal. exact Heq.
      * unfold blank in *. simpl. rewrite Hc. exact Hb.
    + exists []. split; reflexivity.
Qed.

Lemma blank_rev (s : jsstring) : blank (rev s) = blank s.
Proof.
  unfold blank. induction s as [|c rest IH]; simpl.
  - reflexivity.
  - rewrite forallb_app, IH. simpl.
    destruct (is_white_space c), (forallb is_white_space rest); reflexivity.
Qed.

Lemma trimEnd_nil_iff (s : jsstring) : trimEnd s = [] <-> blank s = true.
Proof.
  unfold trimEnd. rewrite <- blank_rev, <- trimStart_nil_iff.
  split; intros H.
  - apply (f_equal (@rev code_unit)) in H. rewrite rev_involutive in H. exact H.
  - rewrite H. reflexivity.
Qed.

(** The trimmed value is empty exactly for an empty or white-space-only
    value. *)
Lemma trim_nil_iff (s : jsstring) : trim s = [] <-> blank s = true.
Proof.
  unfold trim. rewrite trimEnd_nil_iff. split; intros H.
  - apply trimStart_nil_iff.
    destruct (trimStart s) as [|c rest] eqn:Hs; [reflexivity|].
    apply trimStart_head in Hs. unfold blank in H. simpl in H.
    rewrite Hs in H. discriminate.
  - apply trimStart_nil_iff in H. rewrite H. reflexivity.
Qed.

Lemma not_string_false (s : jsstring) : s <> [] -> not_string s = false.
Proof. destruct s; [congruence | reflexivity]. Qed.

(** What [trim] leaves neither starts nor ends with white space. *)
Lemma trim_first (s rest : jsstring) (c : code_unit) :
  trim s = c :: rest -> is_white_space c = false.
Proof.
  unfold trim, trimEnd. intros H.
  destruct (trimStart_suffix (rev (trimStart s))) as [prefix [Heq Hb]].
  apply (f_equal (@rev code_unit)) in Heq.
  rewrite rev_involutive, rev_app_distr, H in Heq.
  destruct (trimStart s) as [|d s'] eqn:Hs.
  - discriminate.
  - simpl in Heq. injection Heq as <- _.
    exact (trimStart_head _ _ _ Hs).
Qed.

(** ** The five ways an activation runs *)

#[local] Arguments trim : simpl never.
#[local] Arguments lit : simpl never.

Lemma run_blank (markup : json -> result jsstring) (net : network) (p : page) :
  trim (searchInput_value p) = [] ->
  run net (click_handler markup) p =
  {| returned := inr tt; final := p; trace := [Alerted empty_notice] |}.
Proof.
  intros H. unfold click_handler. cbn. rewrite H. reflexivity.
Qed.

#[local] Arguments search_init : simpl never.
#[local] Arguments endpoint : simpl never.

Section Activation.

Variable markup : json -> result jsstring.
Variable net : network.
Variable p : page.

Let brandDrug : jsstring := trim (searchInput_value p).
Let request : action := Requested endpoint (search_init brandDrug).

Hypothesis valid : brandDrug <> [].

Lemma run_valid :
  run net (click_handler markup) p =
  run net (try_catch (try_block markup brandDrug) catch_block) p.
Proof.
  unfold click_handler. cbn. fold brandDrug.
  rewrite (not_string_false _ valid). reflexivity.
Qed.

Lemma run_fetch_rejected (reason : exn) :
  net endpoint (search_init brandDrug) = inl reason ->
  run net (click_handler markup) p =
  {| returned := inr tt;
     final := write (Text failure_text) p;
     trace := [request; Logged (lit "Error:") reason; WroteText failure_text] |}.
Proof.
  intros H. rewrite run_valid. cbn. rewrite H. reflexivity.
Qed.

Lemma run_not_ok (response : Response) :
  net endpoint (search_init brandDrug) = inr response ->
  ok response = false ->
  run net (click_handler markup) p =
  {| returned := inr tt;
     final := write (Text http_error_text) p;
     trace := [request; WroteText http_error_text] |}.
Proof.
  intros H Hok. rewrite run_valid. cbn. rewrite H. cbn. rewrite Hok. reflexivity.
Qed.

Lemma run_json_rejected (response : Response) (reason : exn) :
  net endpoint (search_init brandDrug) = inr response ->
  ok response = true ->
  json_outcome response = inl reason ->
  run net (click_handler markup) p =
  {| returned := inr tt;
     final := write (Text failure_text) p;
     trace := [request; BodyRead response;
               Logged (lit "Error:") reason; WroteText failure_text] |}.
Proof.
  intros H Hok Hjson. rewrite run_valid. cbn. rewrite H. cbn.
  rewrite Hok. cbn. rewrite Hjson. reflexivity.
Qed.

Lemma run_markup_throws (response : Response) (data : json) (error : exn) :
  net endpoint (search_init brandDrug) = inr response ->
  ok response = true ->
  json_outcome response = inr data ->
  markup data = inl error ->
  run net (click_handler markup) p =
  {| returned := inr tt;
     final := write (Text failure_text) p;
     trace := [request; BodyRead response;
               Logged (lit "Error:") error; WroteText failure_text] |}.
Proof.
  intros H Hok Hjson Hm. rewrite run_valid. cbn. rewrite H. cbn.
  rewrite Hok. cbn. rewrite Hjson. cbn. rewrite Hm. reflexivity.
Qed.

Lemma run_rendered (response : Response) (data : json) (html : jsstring) :
  net endpoint (search_init brandDrug) = inr response ->
  ok response = true ->
  json_outcome response = inr data ->
  markup data = inr html ->
  run net (click_handler markup) p =
  {| returned := inr tt;
     final := write (Markup html) p;
     trace := [request; BodyRead response; WroteMarkup html] |}.
Proof.
  intros H Hok Hjson Hm. rewrite run_valid. cbn. rewrite H. cbn.
  rewrite Hok. cbn. rewrite Hjson. cbn. rewrite Hm. reflexivity.
Qed.

(** The exceptions that leave the [try] block are those of [try_failure]. *)
Lemma try_block_throws_iff (error : exn) :
  returned (run net (try_block markup brandDrug) p) = inl error <->
  try_failure markup net brandDrug error.
Proof.
  unfold try_block. cbn. split.
  - destruct (net endpoint (search_init brandDrug)) as [reason|response] eqn:H; cbn.
    + intros [= ->]. now apply fetch_rejects.
    + destruct (ok response) eqn:Hok; cbn; [|discriminate].
      destruct (json_outcome response) as [reason|data] eqn:Hjson; cbn.
      * intros [= ->]. now apply json_rejects with response.
      * destruct (markup data) as [e|html] eqn:Hm; cbn; [|discriminate].
        intros [= ->]. now apply markup_throws with response data.
  - intros [H | response H Hok Hjson | response data H Hok Hjson Hm];
      rewrite H; cbn; try (rewrite Hok; cbn; rewrite Hjson; cbn);
      try rewrite Hm; reflexivity.
Qed.

(** A failure is always caught: the handler itself returns normally. *)
Lemma run_failure (error : exn) :
  try_failure markup net brandDrug error ->
  exists before,
    run net (click_handler markup) p =
    {| returned := inr tt;
       final := write (Text failure_text) p;
       trace := request :: before ++
                [Logged (lit "Error:") error; WroteText failure_text] |}.
Proof.
  intros [H | response H Hok Hjson | response data H Hok Hjson Hm].
  - exists []. now apply run_fetch_rejected.
  - exists [BodyRead response]. now apply run_json_rejected.
  - exists [BodyRead response]. now apply run_markup_throws with data.
Qed.

End Activation.

(** The input field is only read. *)
Lemma perform_keeps_input (net : network) (X : Type) (e : effect X) (p : page) :
  searchInput_value (snd (fst (perform net e p))) = searchInput_value p.
Proof. destruct e; reflexivity. Qed.

Lemma run_keeps_input (A : Type) (net : network) (c : prog A) (p : page) :
  searchInput_value (final (run net c p)) = searchInput_value p.
Proof.
  revert p. induction c as [a|e|X e k IH]; intros p; cbn.
  - reflexivity.
  - reflexivity.
  - pose proof (perform_keeps_input net X e p) as Hp.
    destruct (perform net e p) as [[x p'] observed]. cbn in *.
    rewrite IH. exact Hp.
Qed.

(** For a valid query the content left in [resultDiv] depends on the query
    and on how the fetch settles, and on nothing else: not on the content
    found there, not on the rest of the network. *)
Lemma rendering_determined (markup : json -> result jsstring)
  (net net' : network) (p p' : page) :
  searchInput_value p' = searchInput_value p ->
  trim (searchInput_value p) <> [] ->
  net' endpoint (search_init (trim (searchInput_value p))) =
  net endpoint (search_init (trim (searchInput_value p))) ->
  resultDiv (activate net' (click_handler markup) p') =
  resultDiv (activate net (click_handler markup) p).
Proof.
  intros Hv valid Hnet. unfold activate.
  assert (valid' : trim (searchInput_value p') <> []) by (rewrite Hv; exact valid).
  rewrite <- Hv in Hnet at 1.
  destruct (net endpoint (search_init (trim (searchInput_value p))))
    as [reason|response] eqn:H.
  - rewrite (run_fetch_rejected markup net p valid reason H).
    rewrite (run_fetch_rejected markup net' p' valid' reason Hnet). reflexivity.
  - destruct (ok response) eqn:Hok.
    + destruct (json_outcome response) as [reason|data] eqn:Hjson.
      * rewrite (run_json_rejected markup net p valid response reason H Hok Hjson).
        rewrite (run_json_rejected markup net' p' valid' response reason Hnet Hok Hjson).
        reflexivity.
      * destruct (markup data) as [error|html] eqn:Hm.
        -- rewrite (run_markup_throws markup net p valid response data error H Hok Hjson Hm).
           rewrite (run_markup_throws markup net' p' valid' response data error Hnet Hok Hjson Hm).
           reflexivity.
        -- rewrite (run_rendered markup net p valid response data html H Hok Hjson Hm).
           rewrite (run_rendered markup net' p' valid' response data html Hnet Hok Hjson Hm).
           reflexivity.
    + rewrite (run_not_ok markup net p valid response H Hok).
      rewrite (run_not_ok markup net' p' valid' response Hnet Hok). reflexivity.
Qed.

(** Whatever the network does, a valid query is requested once, first. *)
Lemma trace_valid (markup : json -> result jsstring) (net : network) (p : page) :
  trim (searchInput_value p) <> [] ->
  exists rest,
    trace (run net (click_handler markup) p) =
    Requested endpoint (search_init (trim (searchInput_value p))) :: rest /\
    filter is_request rest = [].
Proof.
  intros valid.
  destruct (net endpoint (search_init (trim (searchInput_value p))))
    as [reason|response] eqn:H.
  - rewrite (run_fetch_rejected markup net p valid reason H).
    eexists. split; reflexivity.
  - destruct (ok response) eqn:Hok.
    + destruct (json_outcome response) as [reason|data] eqn:Hjson.
      * rewrite (run_json_rejected markup net p valid response reason H Hok Hjson).
        eexists. split; reflexivity.
      * destruct (markup data) as [error|html] eqn:Hm.
        -- rewrite (run_markup_throws markup net p valid response data error H Hok Hjson Hm).
           eexists. split; reflexivity.
        -- rewrite (run_rendered markup net p valid response data html H Hok Hjson Hm).
           eexists. split; reflexivity.
    + rewrite (run_not_ok markup net p valid response H Hok).
      eexists. split; reflexivity.
Qed.

Lemma ok_in_range (response : Response) :
  ok response = true <-> 200 <= status response <= 299.
Proof.
  unfold ok. rewrite andb_true_iff, !N.leb_le. tauto.
Qed.

Lemma ok_out_of_range (response : Response) :
  ok response = false <-> status response < 200 \/ 299 < status response.
Proof.
  unfold ok. rewrite andb_false_iff, !N.leb_gt. tauto.
Qed.

(** ** The request body *)

Lemma quote_units_plain (s : jsstring) :
  forallb plain s = true -> quote_units s = s.
Proof.
  induction s as [|c rest IH]; simpl; [reflexivity|].
  rewrite andb_true_iff. intros [Hc Hrest].
  unfold plain in Hc. rewrite !andb_true_iff, !negb_true_iff in Hc.
  destruct Hc as [[[[Hlow Hq] Hb] Hlead] Htrail].
  rewrite Hlead. rewrite (IH Hrest).
  unfold quote_unit. rewrite Hq, Hb, Hlead, Htrail.
  apply N.leb_le in Hlow.
  assert (Hlt : (c <? 0x20) = false) by (apply N.ltb_ge; exact Hlow).
  rewrite Hlt.
  repeat match goal with
         | |- context [c =? ?k] =>
             let E := fresh in
             destruct (N.eqb_spec c k) as [E|E]; [rewrite E in Hlow; lia|]
         end.
  reflexivity.
Qed.

Lemma hex_value_digit (n : N) : n < 16 -> hex_value (hex_digit n) = Some n.
Proof.
  intros H. destruct n as [|bits]; [reflexivity|].
  do 4 (try destruct bits as [bits|bits|]); try reflexivity; exfalso; lia.
Qed.

Lemma hex4_digits (c : code_unit) :
  c < 65536 ->
  hex4 (hex_digit ((c / 4096) mod 16)) (hex_digit ((c / 256) mod 16))
       (hex_digit ((c / 16) mod 16)) (hex_digit (c mod 16)) = Some c.
Proof.
  intros H. unfold hex4.
  rewrite !hex_value_digit by (apply N.mod_lt; discriminate).
  pose proof (N.div_mod c 16 ltac:(discriminate)) as H0.
  pose proof (N.div_mod (c / 16) 16 ltac:(discriminate)) as H1.
  pose proof (N.div_mod (c / 16 / 16) 16 ltac:(discriminate)) as H2.
  replace (c / 16 / 16) with (c / 256) in *
    by (rewrite N.Div0.div_div; reflexivity).
  replace (c / 256 / 16) with (c / 4096) in *
    by (rewrite N.Div0.div_div; reflexivity).
  assert (c / 4096 < 16) by (apply N.Div0.div_lt_upper_bound; exact H).
  rewrite (N.mod_small (c / 4096) 16) in * by assumption.
  apply f_equal. unfold code_unit in *. lia.
Qed.

Lemma read_escape (c : code_unit) (text : jsstring) :
  c < 65536 ->
  read_string_body (UnicodeEscape c ++ text) = push c (read_string_body text).
Proof.
  intros H. unfold UnicodeEscape. cbn [app read_string_body].
  change (0x5C =? 0x22) with false. change (0x5C =? 0x5C) with true.
  change (0x75 =? 0x75) with true. cbv iota.
  rewrite (hex4_digits c H). reflexivity.
Qed.

Lemma read_plain (c : code_unit) (text : jsstring) :
  c <> 0x22 -> c <> 0x5C -> 0x20 <= c ->
  read_string_body (c :: text) = push c (read_string_body text).
Proof.
  intros Hq Hb Hlow. cbn [read_string_body].
  apply N.eqb_neq in Hq, Hb. rewrite Hq, Hb.
  assert (Hlt : (c <? 0x20) = false) by (apply N.ltb_ge; exact Hlow).
  rewrite Hlt. reflexivity.
Qed.

Lemma read_quote_unit (c : code_unit) (text : jsstring) :
  is_leading_surrogate c = false ->
  read_string_body (quote_unit c ++ text) = push c (read_string_body text).
Proof.
  intros Hlead. unfold quote_unit.
  repeat match goal with
         | |- context [c =? ?k] => destruct (N.eqb_spec c k) as [->|?]; [reflexivity|]
         end.
  rewrite Hlead. cbn [orb].
  destruct (c <? 0x20) eqn:Hlow; cbn [orb].
  - apply N.ltb_lt in Hlow. apply read_escape. lia.
  - destruct (is_trailing_surrogate c) eqn:Htrail.
    + unfold is_trailing_surrogate in Htrail.
      apply andb_true_iff in Htrail as [_ Hhi]. apply N.leb_le in Hhi.
      apply read_escape. lia.
    + apply N.ltb_ge in Hlow. now apply read_plain.
Qed.

Lemma surrogate_plain (c : code_unit) :
  is_leading_surrogate c = true \/ is_trailing_surrogate c = true ->
  c <> 0x22 /\ c <> 0x5C /\ 0x20 <= c /\ c < 65536.
Proof.
  unfold is_leading_surrogate, is_trailing_surrogate.
  rewrite !andb_true_iff, !N.leb_le. lia.
Qed.

Lemma read_quoted_upto (n : nat) (s text : jsstring) :
  (List.length s <= n)%nat ->
  read_string_body (quote_units s ++ 0x22 :: text) = Some (s, text).
Proof.
  revert s. induction n as [|n IH]; intros s Hlen.
  - destruct s; [reflexivity | simpl in Hlen; lia].
  - destruct s as [|c rest]; [reflexivity|].
    simpl in Hlen. cbn [quote_units].
    destruct (is_leading_surrogate c) eqn:Hlead.
    + destruct (surrogate_plain c (or_introl Hlead)) as [Hq [Hb [Hlow Hhigh]]].
      destruct rest as [|d rest'].
      * rewrite read_escape by exact Hhigh. reflexivity.
      * destruct (is_trailing_surrogate d) eqn:Htrail.
        -- destruct (surrogate_plain d (or_intror Htrail)) as [Hq' [Hb' [Hlow' _]]].
           cbn [app]. rewrite read_plain by assumption.
           rewrite read_plain by assumption.
           rewrite IH by (simpl in Hlen; lia). reflexivity.
        -- rewrite <- app_assoc, read_escape by exact Hhigh.
           rewrite IH by lia. reflexivity.
    + rewrite <- app_assoc, read_quote_unit by exact Hlead.
      rewrite IH by lia. reflexivity.
Qed.

(** Reading undoes quoting, for every string. *)
Lemma read_quoted (s text : jsstring) :
  read_string_body (quote_units s ++ 0x22 :: text) = Some (s, text).
Proof. exact (read_quoted_upto (List.length s) s text (le_n _)). Qed.

(** The text [JSON.stringify] makes of a one-property object reads back as
    that property. *)
Lemma read_stringified_property (key value : jsstring) :
  read_single_property (JSON_stringify_property key value) = Some (key, value).
Proof.
  unfold JSON_stringify_property, QuoteJSONString, read_single_property, dquote.
  change (lit "{") with [0x7B]. change (lit ":") with [0x3A]. change (lit "}") with [0x7D].
  cbn [app].
  rewrite <- !app_assoc. cbn [app].
  rewrite read_quoted. rewrite read_quoted. reflexivity.
Qed.

(** ** The markup expressions *)

Lemma substitution_undefined (data : json) (f : field) :
  get data f = inr None -> substitution data f = inr (lit "undefined").
Proof. unfold substitution. intros ->. reflexivity. Qed.

Lemma substitution_string (members : list (jsstring * json)) (f : field) (s : jsstring) :
  own_property (field_name f) members = Some (JString s) ->
  substitution (JObject members) f = inr s.
Proof. unfold substitution. cbn. intros ->. reflexivity. Qed.

Lemma retailer_boxes_of_strings (infos : list jsstring) :
  map_result (fun info => s <- ToString info ;; inr (retailer_box s))%result
             (map JString infos) =
  inr (map retailer_box infos).
Proof.
  induction infos as [|info rest IH]; cbn.
  - reflexivity.
  - cbn in IH. rewrite IH. reflexivity.
Qed.

Lemma generic_markup_strings (members : list (jsstring * json)) (a b c : jsstring) :
  own_property (lit "brand_drug") members = Some (JString a) ->
  own_property (lit "generic_info") members = Some (JString b) ->
  own_property (lit "raw_info") members = Some (JString c) ->
  generic_markup (JObject members) = inr (generic_layout a b c).
Proof.
  intros Ha Hb Hc. unfold generic_markup.
  rewrite (substitution_string members brand_drug a Ha).
  rewrite (substitution_string members generic_info b Hb).
  rewrite (substitution_string members raw_info c Hc).
  reflexivity.
Qed.

Lemma boxes_markup_strings (members : list (jsstring * json))
  (a b : jsstring) (infos : list jsstring) :
  own_property (lit "brand_info") members = Some (JString a) ->
  own_property (lit "generic_summary") members = Some (JString b) ->
  own_property (lit "retailer_info") members = Some (JArray (map JString infos)) ->
  boxes_markup (JObject members) =
  inr (boxes_layout a b (join_empty (map retailer_box infos))).
Proof.
  intros Ha Hb Hr. unfold boxes_markup.
  rewrite (substitution_string members brand_info a Ha).
  rewrite (substitution_string members generic_summary b Hb).
  unfold retailer_row. cbn. rewrite Hr. cbn.
  rewrite retailer_boxes_of_strings. reflexivity.
Qed.

(** Without an array under [retailer_info] the boxes markup throws, whatever
    the other fields are. *)
Lemma boxes_markup_unmappable (data : json) :
  retailer_info_unmappable data = true ->
  exists error, boxes_markup data = inl error.
Proof.
  unfold retailer_info_unmappable, boxes_markup. intros H.
  destruct (substitution data brand_info) as [e|brand]; cbn; [now exists e|].
  destruct (substitution data generic_summary) as [e|generic]; cbn; [now exists e|].
  unfold retailer_row.
  destruct (get data retailer_info) as [e|v]; cbn; [now exists e|].
  destruct v as [[| | | |elements|]|]; cbn in *; try discriminate; eexists; reflexivity.
Qed.

(** A value without a [map] method cannot be mapped over, whatever the
    callback. *)
Lemma call_map_needs_method (v : js_value) (callback : json -> result jsstring) :
  has_map_method v = false -> exists why, call_map v callback = inl (TypeError why).
Proof.
  destruct v as [[| | | |elements|]|]; cbn; intros H;
    try discriminate; eexists; reflexivity.
Qed.

(** ** Checks on concrete inputs *)

Example trim_strips_both_ends :
  trim ([0x20; 0x09; 0xA0; 0xFEFF] ++ lit "a b" ++ [0x2003; 0x0A]) = lit "a b".
Proof. reflexivity. Qed.

Example trim_of_white_space :
  trim [0x20; 0x3000; 0x0D; 0x0A] = [] /\ not_string (trim (lit "0")) = false.
Proof. split; reflexivity. Qed.

Example quote_escapes :
  QuoteJSONString (lit "a" ++ dquote ++ [0x5C; 0x0A; 0x1F; 0xDC00; 0xE9]) =
  dquote ++ lit "a" ++ [0x5C; 0x22] ++ [0x5C; 0x5C] ++ [0x5C; 0x6E] ++
  [0x5C] ++ lit "u001f" ++ [0x5C] ++ lit "udc00" ++ [0xE9] ++ dquote.
Proof. reflexivity. Qed.

Example quote_keeps_surrogate_pair :
  quote_units [0xD83D; 0xDE00] = [0xD83D; 0xDE00] /\
  quote_units [0xD83D; 0x41] = [0x5C] ++ lit "ud83dA".
Proof. split; reflexivity. Qed.

Example last_member_wins :
  own_property (lit "a") [(lit "a", JNull); (lit "b", JNull); (lit "a", JBool true)] =
  Some (JBool true).
Proof. reflexivity. Qed.

Example ToString_of_array :
  ToString (JArray [JNumber (lit "1"); JNull;
                    JArray [JBool true; JString (lit "x")]; JObject []]) =
  inr (lit "1,,true,x,[object Object]").
Proof. reflexivity. Qed.

Example ToString_shadowed :
  ToString (JObject [(lit "toString", JNull)]) = inl (TypeError NoPrimitiveValue).
Proof. reflexivity. Qed.

Example null_payload_throws :
  generic_markup JNull = inl (TypeError (PropertyOfNull (lit "brand_drug"))) /\
  boxes_markup JNull = inl (TypeError (PropertyOfNull (lit "brand_info"))).
Proof. split; reflexivity. Qed.

Example retailer_string_is_not_mapped :
  boxes_markup (JObject [(lit "retailer_info", JString (lit "C"))]) =
  inl (TypeError (NotAFunction (lit "map"))).
Proof. reflexivity. Qed.

Example markup_is_not_escaped :
  generic_markup (JObject [(lit "brand_drug", JString (lit "<b>X</b>"));
                           (lit "generic_info", JString (lit "&"));
                           (lit "raw_info", JNumber (lit "1.5"))]) =
  inr (generic_layout (lit "<b>X</b>") (lit "&") (lit "1.5")).
Proof. reflexivity. Qed.

Example sample_activation :
  run (serve (respond 200 boxes_sample)) boxes_handler sample_page =
  {| returned := inr tt;
     final := {| searchInput_value := lit "  Tylenol ";
                 resultDiv := Markup (boxes_layout (lit "A") (lit "B")
                                (retailer_box (lit "C") ++ retailer_box (lit "D"))) |};
     trace := [Requested endpoint (search_init (lit "Tylenol"));
               BodyRead {| status := 200; json_outcome := inr boxes_sample |};
               WroteMarkup (boxes_layout (lit "A") (lit "B")
                              (retailer_box (lit "C") ++ retailer_box (lit "D")))] |}.
Proof. reflexivity. Qed.

(** ** The claims of the specification *)

(** C1: when the trimmed input value is not empty, the activation issues
    exactly one request, whatever the network answers: a POST to
    http://localhost:5000/search with the single header
    Content-Type: application/json and, as body, the JSON text of the object
    whose one member brand_drug is the trimmed query: read back as JSON, the
    body gives that member and that query.  For a query without characters
    that JSON escapes, the query stands in the body as it is. *)
Theorem valid_query_posts_once
  (markup : json -> result jsstring) (net : network) (p : page) :
  trim (searchInput_value p) <> [] ->
  filter is_request (trace (run net (click_handler markup) p)) =
  [Requested (lit "http://localhost:5000/search")
     {| method := lit "POST";
        headers := [(lit "Content-Type", lit "application/json")];
        body := lit "{" ++ quoted "brand_drug" ++ lit ":" ++
                QuoteJSONString (trim (searchInput_value p)) ++ lit "}" |}] /\
  read_single_property
    (lit "{" ++ quoted "brand_drug" ++ lit ":" ++
     QuoteJSONString (trim (searchInput_value p)) ++ lit "}") =
  Some (lit "brand_drug", trim (searchInput_value p)) /\
  (forallb plain (trim (searchInput_value p)) = true ->
   QuoteJSONString (trim (searchInput_value p)) =
   dquote ++ trim (searchInput_value p) ++ dquote).
Proof.
  intros valid. split; [|split].
  - destruct (trace_valid markup net p valid) as [rest [-> Hrest]].
    cbn [filter is_request]. rewrite Hrest. reflexivity.
  - exact (read_stringified_property (lit "brand_drug") (trim (searchInput_value p))).
  - intros Hplain. unfold QuoteJSONString.
    rewrite (quote_units_plain _ Hplain). reflexivity.
Qed.

Lemma valid_query_posts_once_witness :
  trim (searchInput_value sample_page) <> [] /\
  filter is_request
    (trace (run (serve (respond 200 boxes_sample)) boxes_handler sample_page)) =
  [Requested (lit "http://localhost:5000/search")
     {| method := lit "POST";
        headers := [(lit "Content-Type", lit "application/json")];
        body := lit "{" ++ quoted "brand_drug" ++ lit ":" ++ quoted "Tylenol" ++
                lit "}" |}].
Proof.
  split.
  - vm_compute. discriminate.
  - apply (valid_query_posts_once boxes_markup
             (serve (respond 200 boxes_sample)) sample_page).
    vm_compute. discriminate.
Defined.

(** C2: when the input value is empty or white space only, the activation
    shows the notice "Please enter a brand drug name." and returns; that
    alert is everything it does, so no request is issued. *)
Theorem blank_query_alerts_only
  (markup : json -> result jsstring) (net : network) (p : page) :
  blank (searchInput_value p) = true ->
  returned (run net (click_handler markup) p) = inr tt /\
  trace (run net (click_handler markup) p) =
  [Alerted (lit "Please enter a brand drug name.")] /\
  filter is_request (trace (run net (click_handler markup) p)) = [].
Proof.
  intros Hblank. apply trim_nil_iff in Hblank.
  rewrite (run_blank markup net p Hblank). repeat split.
Qed.

Lemma blank_query_alerts_only_witness :
  let p := {| searchInput_value := [0x20; 0x09; 0xA0]; resultDiv := Text [] |} in
  blank (searchInput_value p) = true /\
  trace (run (serve (respond 200 generic_sample)) generic_handler p) =
  [Alerted (lit "Please enter a brand drug name.")].
Proof.
  split.
  - reflexivity.
  - apply (blank_query_alerts_only generic_markup
             (serve (respond 200 generic_sample))
             {| searchInput_value := [0x20; 0x09; 0xA0]; resultDiv := Text [] |}).
    reflexivity.
Defined.

(** C3, as amended: for a response with a status in 200-299 whose body
    parses as JSON, the handler reads the body and evaluates the markup
    expression of its own revision on the payload, whichever fields the
    payload carries; when that evaluation does not throw, its result
    replaces the markup of the render target.  For an object payload whose
    fields of that revision are strings (an array of strings for
    retailer_info) the result is the layout with the values inserted as they
    are, unescaped. *)
Theorem ok_response_renders_own_layout
  (net : network) (p : page) (response : Response) (data : json) :
  trim (searchInput_value p) <> [] ->
  net endpoint (search_init (trim (searchInput_value p))) = inr response ->
  200 <= status response <= 299 ->
  json_outcome response = inr data ->
  (forall html,
     generic_markup data = inr html ->
     run net generic_handler p =
     {| returned := inr tt;
        final := write (Markup html) p;
        trace := [Requested endpoint (search_init (trim (searchInput_value p)));
                  BodyRead response; WroteMarkup html] |}) /\
  (forall html,
     boxes_markup data = inr html ->
     run net boxes_handler p =
     {| returned := inr tt;
        final := write (Markup html) p;
        trace := [Requested endpoint (search_init (trim (searchInput_value p)));
                  BodyRead response; WroteMarkup html] |}) /\
  (forall members a b c,
     data = JObject members ->
     own_property (lit "brand_drug") members = Some (JString a) ->
     own_property (lit "generic_info") members = Some (JString b) ->
     own_property (lit "raw_info") members = Some (JString c) ->
     generic_markup data = inr (generic_layout a b c)) /\
  (forall members a b infos,
     data = JObject members ->
     own_property (lit "brand_info") members = Some (JString a) ->
     own_property (lit "generic_summary") members = Some (JString b) ->
     own_property (lit "retailer_info") members = Some (JArray (map JString infos)) ->
     boxes_markup data =
     inr (boxes_layout a b (join_empty (map retailer_box infos)))).
Proof.
  intros valid Hnet Hok Hjson. apply ok_in_range in Hok.
  split; [|split; [|split]].
  - intros html Hm.
    exact (run_rendered generic_markup net p valid response data html Hnet Hok Hjson Hm).
  - intros html Hm.
    exact (run_rendered boxes_markup net p valid response data html Hnet Hok Hjson Hm).
  - intros members a b c -> Ha Hb Hc. now apply generic_markup_strings.
  - intros members a b infos -> Ha Hb Hr. now apply boxes_markup_strings.
Qed.

Lemma ok_response_renders_own_layout_witness :
  resultDiv (activate (serve (respond 200 generic_sample)) generic_handler sample_page) =
  Markup (generic_layout (lit "X") (lit "Y") (lit "Z")).
Proof.
  pose proof (ok_response_renders_own_layout
                (serve (respond 200 generic_sample)) sample_page
                {| status := 200; json_outcome := inr generic_sample |}
                generic_sample) as H.
  destruct H as [H _].
  - vm_compute. discriminate.
  - reflexivity.
  - cbn. lia.
  - reflexivity.
  - unfold activate.
    rewrite (H (generic_layout (lit "X") (lit "Y") (lit "Z")) eq_refl).
    reflexivity.
Defined.

(** C3, as the specification words it, fails on both revisions: neither
    chooses a layout by the fields found in the payload.  Given the boxes
    payload, [src/app.ts] fills its own layout with "undefined" three times;
    given the generic payload, [src/unnamed/part_000] throws on the missing
    retailer_info and shows the failure text. *)
Lemma payload_fields_not_dispatched :
  resultDiv (activate (serve (respond 200 boxes_sample)) generic_handler sample_page) =
  Markup (generic_layout (lit "undefined") (lit "undefined") (lit "undefined")) /\
  resultDiv (activate (serve (respond 200 generic_sample)) boxes_handler sample_page) =
  Text (lit "An error occurred.") /\
  ~ renders_present_fields generic_handler /\
  ~ renders_present_fields boxes_handler.
Proof.
  split; [reflexivity|]. split; [reflexivity|]. split.
  - intros H.
    specialize (H (serve (respond 200 boxes_sample)) sample_page
                  {| status := 200; json_outcome := inr boxes_sample |}
                  boxes_sample
                  (boxes_layout (lit "A") (lit "B")
                     (retailer_box (lit "C") ++ retailer_box (lit "D")))).
    assert (Hne : trim (searchInput_value sample_page) <> [])
      by (vm_compute; discriminate).
    specialize (H Hne eq_refl eq_refl eq_refl eq_refl).
    vm_compute in H. discriminate H.
  - intros H.
    specialize (H (serve (respond 200 generic_sample)) sample_page
                  {| status := 200; json_outcome := inr generic_sample |}
                  generic_sample
                  (generic_layout (lit "X") (lit "Y") (lit "Z"))).
    assert (Hne : trim (searchInput_value sample_page) <> [])
      by (vm_compute; discriminate).
    specialize (H Hne eq_refl eq_refl eq_refl eq_refl).
    vm_compute in H. discriminate H.
Qed.

(** C4: when the response has a status outside 200-299, the activation
    replaces the text of the render target by exactly
    "Error fetching drug information." and, the request apart, does nothing
    else: the body of the response is never read. *)
Theorem http_error_shows_fixed_text
  (markup : json -> result jsstring) (net : network) (p : page)
  (response : Response) :
  trim (searchInput_value p) <> [] ->
  net endpoint (search_init (trim (searchInput_value p))) = inr response ->
  status response < 200 \/ 299 < status response ->
  resultDiv (activate net (click_handler markup) p) =
  Text (lit "Error fetching drug information.") /\
  trace (run net (click_handler markup) p) =
  [Requested endpoint (search_init (trim (searchInput_value p)));
   WroteText (lit "Error fetching drug information.")] /\
  filter is_body_read (trace (run net (click_handler markup) p)) = [].
Proof.
  intros valid Hnet Hstatus. apply ok_out_of_range in Hstatus.
  unfold activate. rewrite (run_not_ok markup net p valid response Hnet Hstatus).
  repeat split.
Qed.

Lemma http_error_shows_fixed_text_witness :
  resultDiv (activate (serve (respond 500 boxes_sample)) boxes_handler sample_page) =
  Text (lit "Error fetching drug information.").
Proof.
  apply (http_error_shows_fixed_text boxes_markup
           (serve (respond 500 boxes_sample)) sample_page
           {| status := 500; json_outcome := inr boxes_sample |}).
  - vm_compute. discriminate.
  - reflexivity.
  - right. cbn. lia.
Defined.

(** C5: when the fetch rejects, the parsing of the body as JSON fails, or
    the markup expression throws (these are all the exceptions of the try
    block, see [try_block_throws_iff]), the activation ends with the text of
    the render target replaced by exactly "An error occurred.", after the
    error has been passed to console.error under the label "Error:"; the
    handler itself returns normally.  The body is parsed for ok responses
    only, so a parse failure is a failure of an ok response. *)
Theorem failure_is_logged_and_shown
  (markup : json -> result jsstring) (net : network) (p : page) (error : exn) :
  trim (searchInput_value p) <> [] ->
  try_failure markup net (trim (searchInput_value p)) error ->
  returned (run net (click_handler markup) p) = inr tt /\
  resultDiv (activate net (click_handler markup) p) =
  Text (lit "An error occurred.") /\
  exists before,
    trace (run net (click_handler markup) p) =
    Requested endpoint (search_init (trim (searchInput_value p))) :: before ++
    [Logged (lit "Error:") error; WroteText (lit "An error occurred.")].
Proof.
  intros valid Hfail.
  destruct (run_failure markup net p valid error Hfail) as [before Hrun].
  unfold activate. rewrite Hrun. repeat split. now exists before.
Qed.

Lemma failure_is_logged_and_shown_witness :
  let failed := Rejection (lit "TypeError") (lit "Failed to fetch") in
  trace (run (serve (inl failed)) generic_handler sample_page) =
  [Requested endpoint (search_init (lit "Tylenol"));
   Logged (lit "Error:") failed; WroteText (lit "An error occurred.")] /\
  resultDiv (activate (serve (inl failed)) generic_handler sample_page) =
  Text (lit "An error occurred.").
Proof.
  split.
  - reflexivity.
  - apply (failure_is_logged_and_shown generic_markup
             (serve (inl (Rejection (lit "TypeError") (lit "Failed to fetch"))))
             sample_page
             (Rejection (lit "TypeError") (lit "Failed to fetch"))).
    + vm_compute. discriminate.
    + apply fetch_rejects. reflexivity.
Defined.

(** C6: for an ok response whose body is
    {"brand_info":"A","generic_summary":"B","retailer_info":["C","D"]}, the
    boxes revision leaves as markup its layout with A and B in the two top
    boxes and a retailer row of exactly two boxes, C then D. *)
Theorem boxes_sample_rendered (net : network) (p : page) (response : Response) :
  trim (searchInput_value p) <> [] ->
  net endpoint (search_init (trim (searchInput_value p))) = inr response ->
  200 <= status response <= 299 ->
  json_outcome response = inr boxes_sample ->
  exists html,
    resultDiv (activate net boxes_handler p) = Markup html /\
    html = boxes_layout (lit "A") (lit "B")
             (retailer_box (lit "C") ++ retailer_box (lit "D")) /\
    includes (lit "<pre>A</pre>") html = true /\
    includes (lit "<pre>B</pre>") html = true /\
    includes (lit "<pre>C</pre></div><div class=" ++ quoted "retailer-box box" ++
              lit "><pre>D</pre>") html = true /\
    occurrences (lit "<div class=" ++ quoted "retailer-box box" ++ lit ">") html = 2%nat.
Proof.
  intros valid Hnet Hok Hjson. apply ok_in_range in Hok.
  eexists. split; [|split; [reflexivity|]].
  - unfold activate, boxes_handler.
    rewrite (run_rendered boxes_markup net p valid response boxes_sample _
               Hnet Hok Hjson eq_refl).
    reflexivity.
  - repeat split; vm_compute; reflexivity.
Qed.

Lemma boxes_sample_rendered_witness :
  exists html,
    resultDiv (activate (serve (respond 200 boxes_sample)) boxes_handler sample_page) =
    Markup html /\
    occurrences (lit "<div class=" ++ quoted "retailer-box box" ++ lit ">") html = 2%nat.
Proof.
  destruct (boxes_sample_rendered (serve (respond 200 boxes_sample)) sample_page
              {| status := 200; json_outcome := inr boxes_sample |})
    as [html [Hdiv [_ [_ [_ [_ Hocc]]]]]].
  - vm_compute. discriminate.
  - reflexivity.
  - cbn. lia.
  - reflexivity.
  - exists html. split; assumption.
Defined.

(** C7: for an ok response whose body is
    {"brand_drug":"X","generic_info":"Y","raw_info":"Z"}, the generic
    revision leaves as markup its layout with X in the heading and Y and Z
    in the two paragraphs. *)
Theorem generic_sample_rendered (net : network) (p : page) (response : Response) :
  trim (searchInput_value p) <> [] ->
  net endpoint (search_init (trim (searchInput_value p))) = inr response ->
  200 <= status response <= 299 ->
  json_outcome response = inr generic_sample ->
  exists html,
    resultDiv (activate net generic_handler p) = Markup html /\
    html = generic_layout (lit "X") (lit "Y") (lit "Z") /\
    includes (lit "<h2>Generic Info for X</h2>") html = true /\
    includes (lit "<p>Y</p>") html = true /\
    includes (lit "<p>Z</p>") html = true.
Proof.
  intros valid Hnet Hok Hjson. apply ok_in_range in Hok.
  eexists. split; [|split; [reflexivity|]].
  - unfold activate, generic_handler.
    rewrite (run_rendered generic_markup net p valid response generic_sample _
               Hnet Hok Hjson eq_refl).
    reflexivity.
  - repeat split; vm_compute; reflexivity.
Qed.

Lemma generic_sample_rendered_witness :
  exists html,
    resultDiv (activate (serve (respond 200 generic_sample)) generic_handler sample_page) =
    Markup html /\
    includes (lit "<p>Z</p>") html = true.
Proof.
  destruct (generic_sample_rendered (serve (respond 200 generic_sample)) sample_page
              {| status := 200; json_outcome := inr generic_sample |})
    as [html [Hdiv [_ [_ [_ Hz]]]]].
  - vm_compute. discriminate.
  - reflexivity.
  - cbn. lia.
  - reflexivity.
  - exists html. split; assumption.
Defined.

(** C8: with a valid query, a second activation that starts from the page
    the first one left, with the same value in the input and the same
    settlement of its fetch, leaves the same content in the render target as
    the first did. *)
Theorem same_query_twice_same_render
  (markup : json -> result jsstring) (first second : network) (p : page) :
  trim (searchInput_value p) <> [] ->
  second endpoint (search_init (trim (searchInput_value p))) =
  first endpoint (search_init (trim (searchInput_value p))) ->
  searchInput_value (activate first (click_handler markup) p) = searchInput_value p /\
  resultDiv (activate second (click_handler markup)
               (activate first (click_handler markup) p)) =
  resultDiv (activate first (click_handler markup) p).
Proof.
  intros valid Hsame.
  assert (Hkeep : searchInput_value (activate first (click_handler markup) p) =
                  searchInput_value p) by apply run_keeps_input.
  split; [exact Hkeep|].
  now apply rendering_determined.
Qed.

Lemma same_query_twice_same_render_witness :
  let net := serve (respond 200 boxes_sample) in
  resultDiv (activate net boxes_handler (activate net boxes_handler sample_page)) =
  resultDiv (activate net boxes_handler sample_page).
Proof.
  apply (same_query_twice_same_render boxes_markup
           (serve (respond 200 boxes_sample)) (serve (respond 200 boxes_sample))
           sample_page).
  - vm_compute. discriminate.
  - reflexivity.
Defined.

(** C9: when the input value is empty or white space only, the activation
    leaves the page as it found it; in particular the render target keeps
    its content, and nothing is written to it. *)
Theorem blank_query_leaves_page
  (markup : json -> result jsstring) (net : network) (p : page) :
  blank (searchInput_value p) = true ->
  activate net (click_handler markup) p = p /\
  resultDiv (activate net (click_handler markup) p) = resultDiv p /\
  filter is_write (trace (run net (click_handler markup) p)) = [].
Proof.
  intros Hblank. apply trim_nil_iff in Hblank.
  unfold activate. rewrite (run_blank markup net p Hblank). repeat split.
Qed.

Lemma blank_query_leaves_page_witness :
  let p := {| searchInput_value := lit "   ";
              resultDiv := Markup (lit "<p>earlier result</p>") |} in
  resultDiv (activate (serve (respond 200 boxes_sample)) boxes_handler p) =
  Markup (lit "<p>earlier result</p>").
Proof.
  apply (blank_query_leaves_page boxes_markup (serve (respond 200 boxes_sample))
           {| searchInput_value := lit "   ";
              resultDiv := Markup (lit "<p>earlier result</p>") |}).
  reflexivity.
Defined.

(** C10: for an ok response whose payload has no retailer_info, or one
    without a map method, the boxes revision throws while it builds the
    markup: the render target ends with the text "An error occurred." and no
    markup is written at all.  A missing scalar field does no such thing:
    its substitution is the text "undefined", and a payload with none of the
    three generic fields fills the generic layout with it. *)
Theorem unmappable_retailers_fail_missing_scalars_show
  (net : network) (p : page) (response : Response) (data : json) :
  trim (searchInput_value p) <> [] ->
  net endpoint (search_init (trim (searchInput_value p))) = inr response ->
  200 <= status response <= 299 ->
  json_outcome response = inr data ->
  (retailer_info_unmappable data = true ->
   exists error,
     boxes_markup data = inl error /\
     run net boxes_handler p =
     {| returned := inr tt;
        final := write (Text (lit "An error occurred.")) p;
        trace := [Requested endpoint (search_init (trim (searchInput_value p)));
                  BodyRead response;
                  Logged (lit "Error:") error;
                  WroteText (lit "An error occurred.")] |}) /\
  (forall f, get data f = inr None ->
             substitution data f = inr (lit "undefined")) /\
  (get data brand_drug = inr None ->
   get data generic_info = inr None ->
   get data raw_info = inr None ->
   resultDiv (activate net generic_handler p) =
   Markup (generic_layout (lit "undefined") (lit "undefined") (lit "undefined"))) /\
  (forall infos,
     get data brand_info = inr None ->
     get data generic_summary = inr None ->
     get data retailer_info = inr (Some (JArray (map JString infos))) ->
     resultDiv (activate net boxes_handler p) =
     Markup (boxes_layout (lit "undefined") (lit "undefined")
               (join_empty (map retailer_box infos)))).
Proof.
  intros valid Hnet Hok Hjson. apply ok_in_range in Hok.
  split; [|split; [|split]].
  - intros Hun. destruct (boxes_markup_unmappable data Hun) as [error Hm].
    exists error. split; [exact Hm|].
    exact (run_markup_throws boxes_markup net p valid response data error
             Hnet Hok Hjson Hm).
  - exact (substitution_undefined data).
  - intros Ha Hb Hc. unfold activate, generic_handler.
    rewrite (run_rendered generic_markup net p valid response data
               (generic_layout (lit "undefined") (lit "undefined") (lit "undefined"))
               Hnet Hok Hjson).
    + reflexivity.
    + unfold generic_markup.
      rewrite !substitution_undefined by assumption. reflexivity.
  - intros infos Ha Hb Hr. unfold activate, boxes_handler.
    rewrite (run_rendered boxes_markup net p valid response data
               (boxes_layout (lit "undefined") (lit "undefined")
                  (join_empty (map retailer_box infos)))
               Hnet Hok Hjson).
    + reflexivity.
    + unfold boxes_markup, retailer_row.
      rewrite !substitution_undefined by assumption.
      rewrite Hr. cbn. rewrite retailer_boxes_of_strings. reflexivity.
Qed.

Lemma unmappable_retailers_fail_missing_scalars_show_witness :
  retailer_info_unmappable generic_sample = true /\
  resultDiv (activate (serve (respond 200 generic_sample)) boxes_handler sample_page) =
  Text (lit "An error occurred.").
Proof.
  split; [reflexivity|].
  destruct (unmappable_retailers_fail_missing_scalars_show
              (serve (respond 200 generic_sample)) sample_page
              {| status := 200; json_outcome := inr generic_sample |}
              generic_sample) as [H _].
  - vm_compute. discriminate.
  - reflexivity.
  - cbn. lia.
  - reflexivity.
  - destruct (H eq_refl) as [error [_ Hrun]].
    unfold activate. rewrite Hrun. reflexivity.
Defined.

(** * Further properties of the handler *)

(** ** What an activation does, path by path *)

Lemma trim_last (s front : jsstring) (c : code_unit) :
  trim s = front ++ [c] -> is_white_space c = false.
Proof.
  unfold trim, trimEnd. intros H.
  apply (f_equal (@rev code_unit)) in H.
  rewrite rev_involutive, rev_app_distr in H. cbn in H.
  exact (trimStart_head _ _ _ H).
Qed.

(** The runs of an activation with a valid query, by how the fetch settles. *)
Lemma valid_run_cases (markup : json -> result jsstring) (net : network) (p : page) :
  trim (searchInput_value p) <> [] ->
  let request := Requested endpoint (search_init (trim (searchInput_value p))) in
  (exists error before,
     try_failure markup net (trim (searchInput_value p)) error /\
     filter is_write before = [] /\ filter is_alert before = [] /\
     (forall label e, ~ In (Logged label e) before) /\
     (forall response, In (BodyRead response) before ->
        net endpoint (search_init (trim (searchInput_value p))) = inr response /\
        ok response = true) /\
     run net (click_handler markup) p =
     {| returned := inr tt;
        final := write (Text failure_text) p;
        trace := request :: before ++
                 [Logged (lit "Error:") error; WroteText failure_text] |}) \/
  (exists response,
     net endpoint (search_init (trim (searchInput_value p))) = inr response /\
     ok response = false /\
     run net (click_handler markup) p =
     {| returned := inr tt;
        final := write (Text http_error_text) p;
        trace := [request; WroteText http_error_text] |}) \/
  (exists response data html,
     net endpoint (search_init (trim (searchInput_value p))) = inr response /\
     ok response = true /\
     json_outcome response = inr data /\
     markup data = inr html /\
     run net (click_handler markup) p =
     {| returned := inr tt;
        final := write (Markup html) p;
        trace := [request; BodyRead response; WroteMarkup html] |}).
Proof.
  intros valid request.
  destruct (net endpoint (search_init (trim (searchInput_value p))))
    as [reason|response] eqn:H.
  - left. exists reason, [].
    split; [now apply fetch_rejects|].
    split; [reflexivity|]. split; [reflexivity|].
    split; [intros label e []|].
    split; [intros r []|].
    exact (run_fetch_rejected markup net p valid reason H).
  - destruct (ok response) eqn:Hok.
    + destruct (json_outcome response) as [reason|data] eqn:Hjson.
      * left. exists reason, [BodyRead response].
        split; [now apply json_rejects with response|].
        split; [reflexivity|]. split; [reflexivity|].
        split; [intros label e [Habs|[]]; discriminate Habs|].
        split; [intros r [[= <-]|[]]; split; [reflexivity | exact Hok]|].
        exact (run_json_rejected markup net p valid response reason H Hok Hjson).
      * destruct (markup data) as [error|html] eqn:Hm.
        -- left. exists error, [BodyRead response].
           split; [now apply markup_throws with response data|].
           split; [reflexivity|]. split; [reflexivity|].
           split; [intros label e [Habs|[]]; discriminate Habs|].
           split; [intros r [[= <-]|[]]; split; [reflexivity | exact Hok]|].
           exact (run_markup_throws markup net p valid response data error
                    H Hok Hjson Hm).
        -- right. right. exists response, data, html.
           split; [reflexivity|]. split; [exact Hok|]. split; [exact Hjson|].
           split; [exact Hm|].
           exact (run_rendered markup net p valid response data html H Hok Hjson Hm).
    + right. left. exists response.
      split; [reflexivity|]. split; [exact Hok|].
      exact (run_not_ok markup net p valid response H Hok).
Qed.

(** A failure and a settled response exclude each other. *)
Lemma try_failure_not_rendered (markup : json -> result jsstring) (net : network)
  (q : jsstring) (error : exn) (response : Response) :
  try_failure markup net q error ->
  net endpoint (search_init q) = inr response ->
  ok response = true /\
  (json_outcome response = inl error \/
   exists data, json_outcome response = inr data /\ markup data = inl error).
Proof.
  intros [H | r H Hok Hjson | r data H Hok Hjson Hm] Hnet;
    rewrite Hnet in H; [discriminate| |]; injection H as <-.
  - split; [exact Hok | now left].
  - split; [exact Hok | right; now exists data].
Qed.

(** X1: no exception leaves the handler: whatever the input, the network and the
    payload, the listener returns normally. *)
Theorem handler_never_throws
  (markup : json -> result jsstring) (net : network) (p : page) :
  returned (run net (click_handler markup) p) = inr tt.
Proof.
  destruct (trim (searchInput_value p)) as [|c rest] eqn:Hq.
  - rewrite (run_blank markup net p Hq). reflexivity.
  - assert (valid : trim (searchInput_value p) <> []) by (rewrite Hq; discriminate).
    destruct (valid_run_cases markup net p valid)
      as [[error [before [_ [_ [_ [_ [_ ->]]]]]]]
         |[[response [_ [_ ->]]]
          |[response [data [html [_ [_ [_ [_ ->]]]]]]]]]; reflexivity.
Qed.

(** X2: with a valid query the render target is written exactly once, by the
    last action of the activation, and nothing is alerted. *)
Theorem valid_activation_writes_once_last
  (markup : json -> result jsstring) (net : network) (p : page) :
  trim (searchInput_value p) <> [] ->
  exists before w,
    trace (run net (click_handler markup) p) = before ++ [w] /\
    is_write w = true /\
    filter is_write before = [] /\
    filter is_alert (trace (run net (click_handler markup) p)) = [].
Proof.
  intros valid.
  destruct (valid_run_cases markup net p valid)
    as [[error [before [_ [Hw [Ha [_ [_ ->]]]]]]]
       |[[response [_ [_ ->]]]
        |[response [data [html [_ [_ [_ [_ ->]]]]]]]]]; cbn [trace].
  - exists (Requested endpoint (search_init (trim (searchInput_value p))) ::
            before ++ [Logged (lit "Error:") error]), (WroteText failure_text).
    repeat split.
    + cbn. rewrite <- app_assoc. reflexivity.
    + cbn. rewrite filter_app, Hw. reflexivity.
    + cbn. rewrite filter_app, Ha. reflexivity.
  - eexists [_], _. repeat split.
  - eexists [_; _], _. repeat split.
Qed.

Lemma valid_activation_writes_once_last_witness :
  exists before w,
    trace (run (serve (respond 404 JNull)) generic_handler sample_page) =
    before ++ [w] /\ is_write w = true /\ filter is_write before = [].
Proof.
  destruct (valid_activation_writes_once_last generic_markup
              (serve (respond 404 JNull)) sample_page)
    as [before [w [Ht [Hw [Hb _]]]]].
  - vm_compute. discriminate.
  - exists before, w. repeat split; assumption.
Defined.

(** X3: the body of a response is read exactly when the fetch resolved with a
    response in the ok range, and then once. *)
Theorem body_read_iff_ok
  (markup : json -> result jsstring) (net : network) (p : page) :
  trim (searchInput_value p) <> [] ->
  (forall response,
     In (BodyRead response) (trace (run net (click_handler markup) p)) <->
     net endpoint (search_init (trim (searchInput_value p))) = inr response /\
     ok response = true) /\
  (List.length (filter is_body_read (trace (run net (click_handler markup) p))) <= 1)%nat.
Proof.
  intros valid.
  destruct (net endpoint (search_init (trim (searchInput_value p))))
    as [reason|response] eqn:H.
  - rewrite (run_fetch_rejected markup net p valid reason H). cbn. split.
    + intros r. split.
      * intros [Habs|[Habs|[Habs|[]]]]; discriminate Habs.
      * intros [Habs _]. discriminate Habs.
    + lia.
  - destruct (ok response) eqn:Hok.
    + assert (Hshape : exists rest,
                trace (run net (click_handler markup) p) =
                [Requested endpoint (search_init (trim (searchInput_value p)));
                 BodyRead response] ++ rest /\
                filter is_body_read rest = [] /\
                forall r, ~ In (BodyRead r) rest).
      { destruct (json_outcome response) as [reason|data] eqn:Hjson.
        - rewrite (run_json_rejected markup net p valid response reason H Hok Hjson).
          eexists. repeat split. intros r [Habs|[Habs|[]]]; discriminate Habs.
        - destruct (markup data) as [error|html] eqn:Hm.
          + rewrite (run_markup_throws markup net p valid response data error
                       H Hok Hjson Hm).
            eexists. repeat split. intros r [Habs|[Habs|[]]]; discriminate Habs.
          + rewrite (run_rendered markup net p valid response data html
                       H Hok Hjson Hm).
            eexists. repeat split. intros r [Habs|[]]; discriminate Habs. }
      destruct Hshape as [rest [-> [Hnone Hnot]]]. split.
      * intros r. cbn [app In]. split.
        -- intros [Habs|[[= <-]|Hin]].
           ++ discriminate Habs.
           ++ split; [reflexivity | exact Hok].
           ++ destruct (Hnot r Hin).
        -- intros [[= <-] _]. right. left. reflexivity.
      * cbn. rewrite Hnone. cbn. lia.
    + rewrite (run_not_ok markup net p valid response H Hok). cbn. split.
      * intros r. split.
        -- intros [Habs|[Habs|[]]]; discriminate Habs.
        -- intros [[= <-] Habs]. rewrite Hok in Habs. discriminate Habs.
      * lia.
Qed.

Lemma body_read_iff_ok_witness :
  ~ In (BodyRead {| status := 503; json_outcome := inr boxes_sample |})
       (trace (run (serve (respond 503 boxes_sample)) boxes_handler sample_page)).
Proof.
  destruct (body_read_iff_ok boxes_markup (serve (respond 503 boxes_sample)) sample_page)
    as [Hiff _].
  - vm_compute. discriminate.
  - intros Hin. apply Hiff in Hin. destruct Hin as [_ Hok].
    vm_compute in Hok. discriminate Hok.
Defined.

Lemma try_failure_unique (markup : json -> result jsstring) (net : network)
  (q : jsstring) (e1 e2 : exn) :
  try_failure markup net q e1 -> try_failure markup net q e2 -> e1 = e2.
Proof.
  intros [H1 | r1 H1 Hok1 Hj1 | r1 d1 H1 Hok1 Hj1 Hm1]
         [H2 | r2 H2 Hok2 Hj2 | r2 d2 H2 Hok2 Hj2 Hm2];
    rewrite H1 in H2; try discriminate H2; injection H2 as <-; try congruence.
Qed.

(** X4: [console.error] is called exactly for a failure inside the [try] block,
    with the label "Error:" and the exception itself: a blank query, an
    HTTP error status and a successful rendering log nothing. *)
Theorem console_logs_iff_failure
  (markup : json -> result jsstring) (net : network) (p : page)
  (label : jsstring) (error : exn) :
  In (Logged label error) (trace (run net (click_handler markup) p)) <->
  trim (searchInput_value p) <> [] /\
  label = lit "Error:" /\
  try_failure markup net (trim (searchInput_value p)) error.
Proof.
  destruct (trim (searchInput_value p)) as [|c rest] eqn:Hq.
  - rewrite (run_blank markup net p Hq). cbn. split.
    + intros [Habs|[]]. discriminate Habs.
    + intros [Habs _]. now destruct Habs.
  - assert (valid : trim (searchInput_value p) <> []) by (rewrite Hq; discriminate).
    rewrite <- Hq.
    destruct (valid_run_cases markup net p valid)
      as [[error0 [before [Hfail [_ [_ [Hnolog [_ ->]]]]]]]
         |[[response [Hnet [Hok ->]]]
          |[response [data [html [Hnet [Hok [Hjson [Hm ->]]]]]]]]]; cbn [trace].
    + split.
      * intros [Habs|Hin]; [discriminate Habs|].
        apply in_app_or in Hin. destruct Hin as [Hin|[[= <- <-]|[Habs|[]]]].
        -- destruct (Hnolog label error Hin).
        -- now repeat split.
        -- discriminate Habs.
      * intros [_ [-> Hfail']].
        rewrite (try_failure_unique markup net _ error error0 Hfail' Hfail).
        right. apply in_or_app. right. left. reflexivity.
    + split.
      * intros [Habs|[Habs|[]]]; discriminate Habs.
      * intros [_ [_ Hfail]].
        destruct (try_failure_not_rendered markup net _ error response Hfail Hnet)
          as [Hok' _].
        rewrite Hok in Hok'. discriminate Hok'.
    + split.
      * intros [Habs|[Habs|[Habs|[]]]]; discriminate Habs.
      * intros [_ [_ Hfail]].
        destruct (try_failure_not_rendered markup net _ error response Hfail Hnet)
          as [_ [Hj|[data' [Hj Hm']]]]; rewrite Hjson in Hj; [discriminate Hj|].
        injection Hj as <-. rewrite Hm in Hm'. discriminate Hm'.
Qed.

(** X5: whatever is requested goes to the one endpoint and carries the trimmed
    value of the input, which is then not empty and neither starts nor ends
    with white space. *)
Theorem every_request_carries_trimmed_query
  (markup : json -> result jsstring) (net : network) (p : page)
  (url : jsstring) (init : RequestInit) :
  In (Requested url init) (trace (run net (click_handler markup) p)) ->
  url = lit "http://localhost:5000/search" /\
  init = search_init (trim (searchInput_value p)) /\
  trim (searchInput_value p) <> [] /\
  (forall c rest, trim (searchInput_value p) = c :: rest ->
                  is_white_space c = false) /\
  (forall front c, trim (searchInput_value p) = front ++ [c] ->
                   is_white_space c = false).
Proof.
  intros Hin.
  assert (valid : trim (searchInput_value p) <> []).
  { intros Hq. rewrite (run_blank markup net p Hq) in Hin.
    destruct Hin as [Habs|[]]. discriminate Habs. }
  destruct (trace_valid markup net p valid) as [rest [Ht Hrest]].
  rewrite Ht in Hin. destruct Hin as [[= <- <-]|Hin].
  - split; [reflexivity|]. split; [reflexivity|]. split; [exact valid|].
    split.
    + intros c rest'. apply trim_first.
    + intros front c. apply trim_last.
  - assert (Hf : In (Requested url init) (filter is_request rest))
      by (apply filter_In; split; [exact Hin | reflexivity]).
    rewrite Hrest in Hf. destruct Hf.
Qed.

Lemma every_request_carries_trimmed_query_witness :
  In (Requested endpoint (search_init (lit "Tylenol")))
     (trace (run (serve (respond 200 generic_sample)) generic_handler sample_page)) /\
  search_init (lit "Tylenol") = search_init (trim (lit "  Tylenol ")).
Proof.
  assert (Hin : In (Requested endpoint (search_init (lit "Tylenol")))
                  (trace (run (serve (respond 200 generic_sample))
                            generic_handler sample_page)))
    by (left; reflexivity).
  split; [exact Hin|].
  exact (proj1 (proj2 (every_request_carries_trimmed_query generic_markup
                         (serve (respond 200 generic_sample)) sample_page
                         endpoint (search_init (lit "Tylenol")) Hin))).
Defined.

(** ** The query and the body made of it *)

Lemma trimEnd_prefix (s : jsstring) :
  exists suffix, s = trimEnd s ++ suffix /\ blank suffix = true.
Proof.
  unfold trimEnd.
  destruct (trimStart_suffix (rev s)) as [prefix [Heq Hb]].
  exists (rev prefix). split.
  - rewrite <- rev_app_distr, <- Heq, rev_involutive. reflexivity.
  - rewrite blank_rev. exact Hb.
Qed.

(** X6: [trim] removes a run of white space at each end and nothing else: what
    lies between, inner white space included, is kept, and what is left
    neither starts nor ends with white space. *)
Theorem trim_removes_only_surrounding_white_space (s : jsstring) :
  exists before after,
    s = before ++ trim s ++ after /\
    blank before = true /\ blank after = true /\
    (forall c rest, trim s = c :: rest -> is_white_space c = false) /\
    (forall front c, trim s = front ++ [c] -> is_white_space c = false).
Proof.
  destruct (trimStart_suffix s) as [before [Hs Hb]].
  destruct (trimEnd_prefix (trimStart s)) as [after [Ht Ha]].
  exists before, after. split; [|split; [exact Hb|split; [exact Ha|split]]].
  - unfold trim. rewrite <- Ht. exact Hs.
  - intros c rest. apply trim_first.
  - intros front c. apply trim_last.
Qed.



(** X8: two queries with the same request body are the same query: the server
    can tell every query from every other. *)
Theorem request_body_determines_query (q1 q2 : jsstring) :
  body (search_init q1) = body (search_init q2) -> q1 = q2.
Proof.
  intros H. apply (f_equal read_single_property) in H.
  unfold search_init in H. cbn [body] in H.
  rewrite !read_stringified_property in H. now injection H.
Qed.

Lemma request_body_determines_query_witness :
  body (search_init (lit "a b")) = body (search_init (trim (lit " a b "))) /\
  lit "a b" = trim (lit " a b ").
Proof.
  split; [reflexivity|].
  apply (request_body_determines_query (lit "a b") (trim (lit " a b "))).
  reflexivity.
Defined.

(** ** Values are inserted as they are *)

Lemma includes_unfold (needle s : jsstring) :
  includes needle s =
  starts_with needle s ||
  match s with
  | [] => false
  | _ :: s' => includes needle s'
  end.
Proof. destruct s; reflexivity. Qed.

Lemma starts_with_app (needle after : jsstring) :
  starts_with needle (needle ++ after) = true.
Proof.
  induction needle as [|c rest IH]; simpl; [reflexivity|].
  rewrite N.eqb_refl. exact IH.
Qed.

Lemma starts_with_common (front needle s : jsstring) :
  starts_with (front ++ needle) (front ++ s) = starts_with needle s.
Proof.
  induction front as [|c rest IH]; simpl; [reflexivity|].
  rewrite N.eqb_refl. exact IH.
Qed.

Lemma starts_with_extend (needle s after : jsstring) :
  starts_with needle s = true -> starts_with needle (s ++ after) = true.
Proof.
  revert s. induction needle as [|c rest IH]; intros s H; [reflexivity|].
  destruct s as [|d s']; [discriminate H|].
  simpl in *. apply andb_true_iff in H. destruct H as [-> H].
  exact (IH s' H).
Qed.

Lemma includes_start (needle s : jsstring) :
  starts_with needle s = true -> includes needle s = true.
Proof. intros H. rewrite includes_unfold, H. reflexivity. Qed.

Lemma includes_skip (needle before s : jsstring) :
  includes needle s = true -> includes needle (before ++ s) = true.
Proof.
  intros H. induction before as [|c rest IH]; [exact H|].
  cbn [app]. rewrite includes_unfold, IH. apply orb_true_r.
Qed.

Lemma includes_extend (needle s after : jsstring) :
  includes needle s = true -> includes needle (s ++ after) = true.
Proof.
  induction s as [|c rest IH]; intros H.
  - apply includes_start. destruct needle; [reflexivity | discriminate H].
  - rewrite includes_unfold in H. apply orb_true_iff in H.
    cbn [app]. rewrite includes_unfold. apply orb_true_iff.
    destruct H as [H|H].
    + left. exact (starts_with_extend needle (c :: rest) after H).
    + right. exact (IH H).
Qed.

Lemma includes_one_of (needle : jsstring) (parts : list jsstring) :
  In needle parts -> includes needle (List.concat parts) = true.
Proof.
  intros Hin. apply in_split in Hin. destruct Hin as [l1 [l2 ->]].
  rewrite concat_app. cbn [List.concat].
  apply includes_skip, includes_start, starts_with_app.
Qed.

(** Finds the needle, itself a chain of parts, at the start of one of the
    parts of a chain. *)
Ltac find_here :=
  apply includes_start; repeat rewrite starts_with_common;
  apply starts_with_app.

Ltac find_part :=
  first [solve [find_here] | apply includes_skip; find_part].

(** X9: the generic revision escapes nothing: whatever strings the three fields
    hold, markup included, each stands in the rendered markup as it is. *)
Theorem generic_values_verbatim
  (net : network) (p : page) (response : Response)
  (members : list (jsstring * json)) (a b c : jsstring) :
  trim (searchInput_value p) <> [] ->
  net endpoint (search_init (trim (searchInput_value p))) = inr response ->
  200 <= status response <= 299 ->
  json_outcome response = inr (JObject members) ->
  own_property (lit "brand_drug") members = Some (JString a) ->
  own_property (lit "generic_info") members = Some (JString b) ->
  own_property (lit "raw_info") members = Some (JString c) ->
  exists html,
    resultDiv (activate net generic_handler p) = Markup html /\
    includes (lit "<h2>Generic Info for " ++ a ++ lit "</h2>") html = true /\
    includes (lit "<p>" ++ b ++ lit "</p>") html = true /\
    includes (lit "<h3>Raw Info</h3>" ++ line 13 (lit "<p>" ++ c ++ lit "</p>"))
      html = true.
Proof.
  intros valid Hnet Hok Hjson Ha Hb Hc. apply ok_in_range in Hok.
  exists (generic_layout a b c). split.
  - unfold activate, generic_handler.
    rewrite (run_rendered generic_markup net p valid response (JObject members)
               (generic_layout a b c) Hnet Hok Hjson
               (generic_markup_strings members a b c Ha Hb Hc)).
    reflexivity.
  - unfold generic_layout, line. rewrite <- !app_assoc.
    split; [|split]; find_part.
Qed.

Lemma generic_values_verbatim_witness :
  let injected := lit "<img src=x onerror=alert(1)>" in
  let payload := JObject [(lit "brand_drug", JString injected);
                          (lit "generic_info", JString (lit "Y"));
                          (lit "raw_info", JString (lit "Z"))] in
  exists html,
    resultDiv (activate (serve (respond 200 payload)) generic_handler sample_page) =
    Markup html /\
    includes (lit "<h2>Generic Info for " ++ injected ++ lit "</h2>") html = true.
Proof.
  intros injected payload.
  destruct (generic_values_verbatim (serve (respond 200 payload)) sample_page
              {| status := 200; json_outcome := inr payload |}
              [(lit "brand_drug", JString injected);
               (lit "generic_info", JString (lit "Y"));
               (lit "raw_info", JString (lit "Z"))]
              injected (lit "Y") (lit "Z"))
    as [html [Hdiv [Ha _]]].
  - vm_compute. discriminate.
  - reflexivity.
  - cbn. lia.
  - reflexivity.
  - reflexivity.
  - reflexivity.
  - reflexivity.
  - exists html. split; assumption.
Defined.

(** X10: the boxes revision escapes nothing either: the two top boxes hold the
    strings of brand_info and generic_summary as they are, and every string
    of retailer_info stands in a retailer box of its own. *)
Theorem boxes_values_verbatim
  (net : network) (p : page) (response : Response)
  (members : list (jsstring * json)) (a b : jsstring) (infos : list jsstring) :
  trim (searchInput_value p) <> [] ->
  net endpoint (search_init (trim (searchInput_value p))) = inr response ->
  200 <= status response <= 299 ->
  json_outcome response = inr (JObject members) ->
  own_property (lit "brand_info") members = Some (JString a) ->
  own_property (lit "generic_summary") members = Some (JString b) ->
  own_property (lit "retailer_info") members = Some (JArray (map JString infos)) ->
  exists html,
    resultDiv (activate net boxes_handler p) = Markup html /\
    includes (lit "<h2>Brand Info</h2>" ++ line 20 (lit "<pre>" ++ a ++ lit "</pre>"))
      html = true /\
    includes (lit "<h2>Generic Summary</h2>" ++
              line 20 (lit "<pre>" ++ b ++ lit "</pre>")) html = true /\
    (forall info, In info infos -> includes (retailer_box info) html = true).
Proof.
  intros valid Hnet Hok Hjson Ha Hb Hr. apply ok_in_range in Hok.
  exists (boxes_layout a b (join_empty (map retailer_box infos))). split.
  - unfold activate, boxes_handler.
    rewrite (run_rendered boxes_markup net p valid response (JObject members)
               (boxes_layout a b (join_empty (map retailer_box infos)))
               Hnet Hok Hjson
               (boxes_markup_strings members a b infos Ha Hb Hr)).
    reflexivity.
  - unfold boxes_layout, line. rewrite <- !app_assoc.
    split; [|split].
    + find_part.
    + find_part.
    + intros info Hin.
      assert (Hrow : includes (retailer_box info)
                       (join_empty (map retailer_box infos)) = true)
        by (apply includes_one_of, in_map, Hin).
      revert Hrow. generalize (join_empty (map retailer_box infos)) as row.
      intros row Hrow.
      repeat match goal with
             | |- includes _ (row ++ _) = true => fail 1
             | |- includes _ (_ ++ _) = true => apply includes_skip
             end.
      apply includes_extend. exact Hrow.
Qed.

Lemma boxes_values_verbatim_witness :
  let payload := JObject [(lit "brand_info", JString (lit "<i>A</i>"));
                          (lit "generic_summary", JString (lit "B"));
                          (lit "retailer_info",
                           JArray (map JString [lit "C"; lit "</pre>D"]))] in
  exists html,
    resultDiv (activate (serve (respond 200 payload)) boxes_handler sample_page) =
    Markup html /\
    includes (retailer_box (lit "</pre>D")) html = true.
Proof.
  intros payload.
  destruct (boxes_values_verbatim (serve (respond 200 payload)) sample_page
              {| status := 200; json_outcome := inr payload |}
              [(lit "brand_info", JString (lit "<i>A</i>"));
               (lit "generic_summary", JString (lit "B"));
               (lit "retailer_info", JArray (map JString [lit "C"; lit "</pre>D"]))]
              (lit "<i>A</i>") (lit "B") [lit "C"; lit "</pre>D"])
    as [html [Hdiv [_ [_ Hinfo]]]].
  - vm_compute. discriminate.
  - reflexivity.
  - cbn. lia.
  - reflexivity.
  - reflexivity.
  - reflexivity.
  - reflexivity.
  - exists html. split; [exact Hdiv|]. apply Hinfo. right. left. reflexivity.
Defined.

(** ** When a rendering fails *)















(** ** Sessions of clicks *)

Lemma valid_click_trim (v : jsstring) (net : network) :
  valid_click (v, net) = true <-> trim v <> [].
Proof.
  unfold valid_click. cbn [fst]. rewrite negb_true_iff.
  split.
  - intros Hb Hq. apply trim_nil_iff in Hq. rewrite Hq in Hb. discriminate Hb.
  - intros Hq. destruct (blank v) eqn:Hb; [|reflexivity].
    apply trim_nil_iff in Hb. contradiction.
Qed.

Lemma valid_trace_counts (markup : json -> result jsstring) (net : network) (p : page) :
  trim (searchInput_value p) <> [] ->
  List.length (filter is_request (trace (run net (click_handler markup) p))) = 1%nat /\
  filter is_alert (trace (run net (click_handler markup) p)) = [].
Proof.
  intros valid. split.
  - destruct (trace_valid markup net p valid) as [rest [-> Hrest]].
    cbn. rewrite Hrest. reflexivity.
  - destruct (valid_run_cases markup net p valid)
      as [[error [before [_ [_ [Ha [_ [_ ->]]]]]]]
         |[[response [_ [_ ->]]]
          |[response [data [html [_ [_ [_ [_ ->]]]]]]]]]; cbn; try reflexivity.
    rewrite filter_app, Ha. reflexivity.
Qed.

(** X13: over a session, each click with a valid value issues exactly one
    request and each click with a blank value exactly one alert: requests
    and alerts together number the clicks. *)
Theorem session_requests_and_alerts
  (markup : json -> result jsstring) (clicks : list (jsstring * network)) (p : page) :
  List.length (filter is_request (snd (session markup clicks p))) =
  List.length (filter valid_click clicks) /\
  List.length (filter is_alert (snd (session markup clicks p))) =
  List.length (filter (fun click => negb (valid_click click)) clicks).
Proof.
  revert p. induction clicks as [|[v net] later IH]; intros p.
  - split; reflexivity.
  - cbn [session].
    destruct (session markup later
                (final (run net (click_handler markup) (type_value v p))))
      as [p' t] eqn:Hs.
    specialize (IH (final (run net (click_handler markup) (type_value v p)))).
    rewrite Hs in IH. cbn [snd] in *. destruct IH as [IHr IHa].
    rewrite !filter_app, !length_app, IHr, IHa. cbn [filter].
    destruct (valid_click (v, net)) eqn:Hv; cbn [negb].
    + apply valid_click_trim in Hv.
      destruct (valid_trace_counts markup net (type_value v p) Hv) as [-> ->].
      split; reflexivity.
    + assert (Hq : trim (searchInput_value (type_value v p)) = []).
      { cbn. destruct (trim v) as [|c rest] eqn:Hq; [reflexivity|].
        assert (Hv' : valid_click (v, net) = true)
          by (apply valid_click_trim; rewrite Hq; discriminate).
        rewrite Hv in Hv'. discriminate Hv'. }
      rewrite (run_blank markup net (type_value v p) Hq). split; reflexivity.
Qed.

Lemma session_without_valid_click
  (markup : json -> result jsstring) (clicks : list (jsstring * network)) (p : page) :
  filter valid_click clicks = [] ->
  resultDiv (fst (session markup clicks p)) = resultDiv p.
Proof.
  revert p. induction clicks as [|[v net] later IH]; intros p Hnone.
  - reflexivity.
  - cbn [session filter] in *.
    destruct (valid_click (v, net)) eqn:Hv; [discriminate Hnone|].
    specialize (IH (final (run net (click_handler markup) (type_value v p))) Hnone).
    destruct (session markup later
                (final (run net (click_handler markup) (type_value v p))))
      as [p' t].
    cbn [fst] in *. rewrite IH.
    assert (Hq : trim (searchInput_value (type_value v p)) = []).
    { cbn. destruct (trim v) as [|c rest] eqn:Hq; [reflexivity|].
      assert (Hv' : valid_click (v, net) = true)
        by (apply valid_click_trim; rewrite Hq; discriminate).
      rewrite Hv in Hv'. discriminate Hv'. }
    rewrite (run_blank markup net (type_value v p) Hq). reflexivity.
Qed.

(** X14: the last valid click decides what the render target shows at the end of
    a session: the content is what that click alone would leave on any page,
    whatever was clicked, answered or rendered before and whatever blank
    clicks follow.  A session without a valid click leaves the content as it
    was. *)
Theorem session_last_valid_click_wins
  (markup : json -> result jsstring) (clicks : list (jsstring * network)) (p : page) :
  (filter valid_click clicks = [] ->
   resultDiv (fst (session markup clicks p)) = resultDiv p) /\
  (forall earlier v net,
     filter valid_click clicks = earlier ++ [(v, net)] ->
     forall p0,
       resultDiv (fst (session markup clicks p)) =
       resultDiv (activate net (click_handler markup) (type_value v p0))).
Proof.
  split; [apply session_without_valid_click|].
  revert p. induction clicks as [|[v1 net1] later IH]; intros p earlier v net Hlast p0.
  - destruct earlier; discriminate Hlast.
  - cbn [session].
    destruct (session markup later
                (final (run net1 (click_handler markup) (type_value v1 p))))
      as [p' t] eqn:Hs.
    cbn [fst].
    assert (Hp' : p' = fst (session markup later
                              (final (run net1 (click_handler markup)
                                        (type_value v1 p)))))
      by (rewrite Hs; reflexivity).
    destruct (filter valid_click later) as [|x xs] eqn:Hlater.
    + cbn [filter] in Hlast. rewrite Hlater in Hlast.
      destruct (valid_click (v1, net1)) eqn:Hv1.
      * destruct earlier as [|y ys].
        -- injection Hlast as <- <-.
           rewrite Hp', (session_without_valid_click markup later _ Hlater).
           apply valid_click_trim in Hv1.
           apply (rendering_determined markup net1 net1 (type_value v1 p0)
                    (type_value v1 p)); [reflexivity | exact Hv1 | reflexivity].
        -- destruct ys; discriminate Hlast.
      * destruct earlier; discriminate Hlast.
    + destruct (exists_last (l := x :: xs)) as [front [[v' net'] Hfront]];
        [discriminate|].
      cbn [filter] in Hlast. rewrite Hlater, Hfront in Hlast.
      assert (Heq : (v', net') = (v, net)).
      { destruct (valid_click (v1, net1)).
        - change ((v1, net1) :: front ++ [(v', net')])
            with (((v1, net1) :: front) ++ [(v', net')]) in Hlast.
          apply app_inj_tail in Hlast. now destruct Hlast.
        - apply app_inj_tail in Hlast. now destruct Hlast. }
      injection Heq as -> ->.
      rewrite Hp'. apply (IH _ front v net). exact Hfront.
Qed.

Lemma session_last_valid_click_wins_witness :
  let clicks := [(lit "Advil", serve (respond 200 boxes_sample));
                 (lit " Tylenol", serve (respond 500 JNull));
                 (lit "   ", serve (respond 200 boxes_sample))] in
  resultDiv (fst (session boxes_markup clicks sample_page)) =
  Text (lit "Error fetching drug information.").
Proof.
  intros clicks.
  destruct (session_last_valid_click_wins boxes_markup clicks sample_page)
    as [_ Hlast].
  rewrite (Hlast [(lit "Advil", serve (respond 200 boxes_sample))]
             (lit " Tylenol") (serve (respond 500 JNull)) eq_refl sample_page).
  reflexivity.
Defined.

Lemma console_logs_iff_failure_witness :
  let failed := Rejection (lit "SyntaxError") (lit "Unexpected token <") in
  let net := serve (inr {| status := 200; json_outcome := inl failed |}) in
  In (Logged (lit "Error:") failed) (trace (run net boxes_handler sample_page)) /\
  ~ In (Logged (lit "Error:") failed)
       (trace (run (serve (respond 500 JNull)) boxes_handler sample_page)).
Proof.
  intros failed net. split.
  - apply (console_logs_iff_failure boxes_markup net sample_page).
    split; [vm_compute; discriminate|]. split; [reflexivity|].
    apply json_rejects with {| status := 200; json_outcome := inl failed |};
      reflexivity.
  - intros Hin.
    apply (console_logs_iff_failure boxes_markup (serve (respond 500 JNull))
             sample_page) in Hin.
    destruct Hin as [_ [_ Hfail]].
    destruct (try_failure_not_rendered boxes_markup (serve (respond 500 JNull)) _ _
                {| status := 500; json_outcome := inr JNull |} Hfail eq_refl)
      as [Hok _].
    vm_compute in Hok. discriminate Hok.
Defined.
